(** * go-lcsc: rate limiter, retry policy and request orchestration

    A shallow embedding of the request pipeline of the [lcsc] package
    (ratelimit.go, the retry policy, the client's [doRequest] and the two
    product endpoints) and the properties stated about it.

    Conventions of the embedding.
    - [time.Duration] and monotonic clock readings are integers counting
      nanoseconds ([Z]); 64-bit overflow of durations is not modelled.
    - [float64] values are exact rationals ([Q]): every arithmetic step of
      the source is kept, rounding is not.  Conversions [float64 -> int64]
      truncate toward zero, as Go's do.
    - [[]byte] values are lists of integers; the client never looks
      inside them.
    - A Go [error] value is [option error], [None] being [nil].
    - A Go [string] is kept as the sequence of runes its UTF-8 decoding
      yields; message literals of errors stay Rocq strings.
    - Everything the outside world decides (clock readings, which case of
      a [select] fires, random draws, HTTP round trips) is read from a
      [World] of streams; the program state counts how far each stream has
      been consumed and records an event trace.
    - One caller is modelled.  The mutex of the limiter makes each turn of
      the loop of [Wait] one atomic step ([refill], then [takeToken] or
      not); the loop itself is unfolded once per unit of fuel. *)

From Stdlib Require Import ZArith QArith Qminmax Qround Qpower Lqa Lia.
From Stdlib Require Import Bool List String Ascii.
Import ListNotations.

Local Open Scope Z_scope.

(* ================================================================== *)
(** * Part I: the embedding *)
(* ================================================================== *)

(** ** Basic data *)

Definition Duration := Z.
Definition Instant := Z.

Definition Millisecond : Duration := 1000000.
Definition Second : Duration := 1000000000.
Definition Minute : Duration := 60 * Second.

Definition rune := Z.
Definition gostring := list rune.
Definition bytes := list Z.

Fixpoint runes (s : string) : gostring :=
  match s with
  | EmptyString => []
  | String a s' => Z.of_N (N_of_ascii a) :: runes s'
  end.

Definition Qlt_bool (x y : Q) : bool := negb (Qle_bool y x).

(** Conversion of a float to an integer type: the fraction is discarded. *)
Definition truncQ (q : Q) : Z :=
  if Qle_bool 0 q then Qfloor q else Qceiling q.

(** ** Errors *)

#[local] Set Warnings "-register-all".

Inductive netErrKind := OpError | DNSError | OtherNetError.

Inductive error :=
| errorString (msg : string)
| errorfInt (format : string) (n : Z)
| wrapError (format : string) (inner : option error)
| APIError (Code : Z) (Message : gostring)
| netError (kind : netErrKind) (timeout : bool)
| ctxCanceled
| ctxDeadlineExceeded.

(** The type assertion [err.(net.Error)]: it succeeds on values whose
    dynamic type has [Timeout] and [Temporary] methods, and does not look
    through [%w] wrappers.  The pair is (kind, result of [Timeout()]). *)
Definition asNetError (err : option error) : option (netErrKind * bool) :=
  match err with
  | Some (netError k t) => Some (k, t)
  | Some ctxDeadlineExceeded => Some (OtherNetError, true)
  | _ => None
  end.

(** ** Retry policy *)

Record RetryConfig := mkRetryConfig {
  MaxRetries : Z;
  InitialBackoff : Duration;
  MaxBackoff : Duration;
  Multiplier : Q;
  Jitter : Q
}.

Definition DefaultRetryConfig : RetryConfig :=
  {| MaxRetries := 3;
     InitialBackoff := 500 * Millisecond;
     MaxBackoff := 30 * Second;
     Multiplier := 2;
     Jitter := 1 # 10 |}.

Definition NoRetry : RetryConfig :=
  {| MaxRetries := 0;
     InitialBackoff := 0;
     MaxBackoff := 0;
     Multiplier := 0;
     Jitter := 0 |}.

Definition isTemporaryNetErr (ne : netErrKind * bool) : bool :=
  match fst ne with
  | OpError => false
  | DNSError => false
  | OtherNetError => false
  end.

Definition isTemporaryNetworkError (err : option error) : bool :=
  match asNetError err with
  | Some ne => snd ne || isTemporaryNetErr ne
  | None => false
  end.

Definition isTimeoutError (err : option error) : bool :=
  match asNetError err with
  | Some ne => snd ne
  | None => false
  end.

Definition retryableStatus (statusCode : Z) : bool :=
  match statusCode with
  | 429 => true
  | 500 => true
  | 502 => true
  | 503 => true
  | 504 => true
  | _ => false
  end.

Definition shouldRetry (err : option error) (statusCode : Z) : bool :=
  if match err with
     | Some _ => isTemporaryNetworkError err || isTimeoutError err
     | None => false
     end
  then true
  else retryableStatus statusCode.

Fixpoint powLoop (n : nat) (base result : Q) : Q :=
  match n with
  | O => result
  | S n' => powLoop n' base (result * base)%Q
  end.

(** [pow]: the loop runs while [i < int(exp)]. *)
Definition pow (base exp : Q) : Q :=
  powLoop (Z.to_nat (truncQ exp)) base 1.

(** [calculateBackoff]; [draw] is the value of [rand.Float64()], read
    only when the jitter is positive. *)
Definition calculateBackoff (c : RetryConfig) (attempt : Z) (draw : Q) : Duration :=
  let backoff := (inject_Z (InitialBackoff c) * pow (Multiplier c) (inject_Z attempt))%Q in
  let backoff :=
    if Qlt_bool 0 (Jitter c)
    then (backoff + backoff * Jitter c * (draw * 2 - 1))%Q
    else backoff in
  let backoff :=
    if Qlt_bool (inject_Z (MaxBackoff c)) backoff
    then inject_Z (MaxBackoff c)
    else backoff in
  truncQ backoff.



(** ** The outside world and the program state *)

(** What one call of [httpClient.Do] followed by [io.ReadAll] meets. *)
Inductive httpResult :=
| DoError (e : error)
| Response (StatusCode : Z) (read : error + bytes).

Record World := mkWorld {
  (** successive readings of the monotonic clock by [time.Now()] *)
  clock : nat -> Instant;
  (** successive [select]s between [ctx.Done()] and a timer: [Some e] when
      the context wins and [ctx.Err()] is [e], [None] when the timer fires *)
  ctxDone : nat -> option error;
  (** successive values of [rand.Float64()] *)
  randFloat64 : nat -> Q;
  (** successive HTTP round trips *)
  roundTrip : nat -> httpResult
}.

Inductive event :=
| EvCacheGet (key : gostring) (hit : bool)
| EvCacheSet (key : gostring) (value : bytes) (ttl : Duration)
| EvTokenTaken
| EvLimiterSelect (waitTime : Duration) (cancelled : bool)
| EvBackoffSleep (d : Duration) (cancelled : bool)
| EvRoundTrip (method url : gostring).

(** The [Cache] interface, as far as the client uses it.  [Get] may change
    the store (an expired entry may be dropped on the way). *)
Class Cache (C : Type) := {
  cacheGet : C -> gostring -> option bytes * C;
  cacheSet : C -> gostring -> bytes -> Duration -> C
}.

(** ** Rate limiter *)

Record RateLimiter := mkRateLimiter {
  tokens : Q;
  maxTokens : Q;
  refillRate : Q;
  lastRefill : Instant
}.

Definition NewRateLimiter (requestsPerSecond : Q) (now : Instant) : RateLimiter :=
  {| tokens := requestsPerSecond;
     maxTokens := requestsPerSecond;
     refillRate := requestsPerSecond;
     lastRefill := now |}.

Arguments NewRateLimiter requestsPerSecond%_Q now%_Z.

(** [t.Sub(u)] and [d.Seconds()]. *)
Definition Sub (t u : Instant) : Duration := t - u.
Definition Seconds (d : Duration) : Q := (inject_Z d / inject_Z Second)%Q.

(** The statements of [Wait] executed under the mutex up to the test
    [r.tokens >= 1]: lazy refill, cap, new timestamp. *)
Definition refill (now : Instant) (r : RateLimiter) : RateLimiter :=
  let elapsed := Seconds (Sub now (lastRefill r)) in
  let t := (tokens r + elapsed * refillRate r)%Q in
  let t := if Qlt_bool (maxTokens r) t then maxTokens r else t in
  {| tokens := t;
     maxTokens := maxTokens r;
     refillRate := refillRate r;
     lastRefill := now |}.

Definition takeToken (r : RateLimiter) : RateLimiter :=
  {| tokens := (tokens r - 1)%Q;
     maxTokens := maxTokens r;
     refillRate := refillRate r;
     lastRefill := lastRefill r |}.

Definition waitTimeFor (r : RateLimiter) : Duration :=
  truncQ ((1 - tokens r) / refillRate r * 1000)%Q * Millisecond.

Record State (C : Type) := mkState {
  clockPos : nat;
  selectPos : nat;
  randPos : nat;
  tripPos : nat;
  limiter : RateLimiter;
  cache : option C;
  trace : list event
}.

Arguments mkState {C}.
Arguments clockPos {C}.
Arguments selectPos {C}.
Arguments randPos {C}.
Arguments tripPos {C}.
Arguments limiter {C}.
Arguments cache {C}.
Arguments trace {C}.

Section Effects.

Context {C : Type}.
Variable w : World.

(** Computations: a state transformer that may run out of fuel ([None]). *)
Definition M (A : Type) : Type := State C -> option (A * State C).

Definition ret {A} (a : A) : M A := fun st => Some (a, st).

Definition bind {A B} (m : M A) (f : A -> M B) : M B :=
  fun st => match m st with
            | Some (a, st') => f a st'
            | None => None
            end.

Definition emit (ev : event) : M unit := fun st =>
  Some (tt, mkState (clockPos st) (selectPos st) (randPos st) (tripPos st)
              (limiter st) (cache st) (ev :: trace st)).

(** [time.Now()] *)
Definition timeNow : M Instant := fun st =>
  Some (clock w (clockPos st),
        mkState (S (clockPos st)) (selectPos st) (randPos st) (tripPos st)
          (limiter st) (cache st) (trace st)).

(** [select { case <-ctx.Done(): ...; case <-timer: ... }] *)
Definition selectCtx : M (option error) := fun st =>
  Some (ctxDone w (selectPos st),
        mkState (clockPos st) (S (selectPos st)) (randPos st) (tripPos st)
          (limiter st) (cache st) (trace st)).

(** [rand.Float64()] *)
Definition randomFloat : M Q := fun st =>
  Some (randFloat64 w (randPos st),
        mkState (clockPos st) (selectPos st) (S (randPos st)) (tripPos st)
          (limiter st) (cache st) (trace st)).

(** [c.httpClient.Do(req)] and the read of the body *)
Definition httpDo (method url : gostring) : M httpResult := fun st =>
  Some (roundTrip w (tripPos st),
        mkState (clockPos st) (selectPos st) (randPos st) (S (tripPos st))
          (limiter st) (cache st) (EvRoundTrip method url :: trace st)).

Definition getLimiter : M RateLimiter := fun st => Some (limiter st, st).

Definition putLimiter (r : RateLimiter) : M unit := fun st =>
  Some (tt, mkState (clockPos st) (selectPos st) (randPos st) (tripPos st)
              r (cache st) (trace st)).

Definition hasCache : M bool := fun st =>
  Some (match cache st with Some _ => true | None => false end, st).

End Effects.

Declare Scope go_scope.
Delimit Scope go_scope with go.
Notation "x <- m ;; k" := (bind m (fun x => k))
  (at level 61, m at next level, right associativity) : go_scope.
Notation "m ;;; k" := (bind m (fun _ => k))
  (at level 61, right associativity) : go_scope.

Section Limiter.

Context {C : Type}.
Variable w : World.

Local Open Scope go_scope.

(** [RateLimiter.Wait]: one unfolding of the [for] loop per unit of
    fuel. *)
Fixpoint Wait (fuel : nat) : M (C := C) (option error) :=
  match fuel with
  | O => fun _ => None
  | S fuel' =>
      now <- timeNow w ;;
      r0 <- getLimiter ;;
      let r := refill now r0 in
      if Qle_bool 1 (tokens r) then
        putLimiter (takeToken r) ;;;
        emit EvTokenTaken ;;;
        ret None
      else
        putLimiter r ;;;
        done <- selectCtx w ;;
        match done with
        | Some e =>
            emit (EvLimiterSelect (waitTimeFor r) true) ;;;
            ret (Some e)
        | None =>
            emit (EvLimiterSelect (waitTimeFor r) false) ;;;
            Wait fuel'
        end
  end.

End Limiter.

Definition bucketInv (r : RateLimiter) : Prop :=
  (0 <= tokens r /\ tokens r <= maxTokens r)%Q.

(** Number of tokens taken in a stretch of the trace. *)
Fixpoint tokensTaken (tr : list event) : nat :=
  match tr with
  | [] => O
  | EvTokenTaken :: tr' => S (tokensTaken tr')
  | _ :: tr' => tokensTaken tr'
  end.

(** The states a limiter built by [NewRateLimiter rps] moves through: the
    two constant fields, the token invariant, and a timestamp that is not
    ahead of the clock. *)
Definition limiterOK {C : Type} (w : World) (rps : Q) (st : State C) : Prop :=
  maxTokens (limiter st) = rps /\
  refillRate (limiter st) = rps /\
  bucketInv (limiter st) /\
  lastRefill (limiter st) <= clock w (clockPos st).

(** ** Concrete worlds and states used to run the model *)

Definition initState {C : Type} (r : RateLimiter) (c : option C) : State C :=
  mkState 0 0 0 0 r c [].

(** A clock that advances by a millisecond per reading, a context that is
    never cancelled, and a server that always answers 503. *)
Definition busyWorld : World :=
  {| clock := fun n => Z.of_nat n * Millisecond;
     ctxDone := fun _ => None;
     randFloat64 := fun _ => 1 # 2;
     roundTrip := fun _ => Response 503 (inr []) |}.

(** The same clock, with a context cancelled during the second wait. *)
Definition cancellingWorld : World :=
  {| clock := fun n => Z.of_nat n * Millisecond;
     ctxDone := fun n => match n with O => None | S _ => Some ctxCanceled end;
     randFloat64 := fun _ => 1 # 2;
     roundTrip := fun _ => Response 503 (inr []) |}.

Definition emptyBucket : RateLimiter :=
  {| tokens := 0; maxTokens := 2; refillRate := 2; lastRefill := 0 |}.

(** ** Strings *)

Definition gostring_eqb (a b : gostring) : bool :=
  if list_eq_dec Z.eq_dec a b then true else false.

Definition isEmpty (s : gostring) : bool :=
  match s with
  | [] => true
  | _ :: _ => false
  end.

(** [unicode.IsSpace]: the Latin-1 space characters and the other code
    points with the White_Space property. *)
Definition IsSpace (r : rune) : bool :=
  ((9 <=? r) && (r <=? 13)) || (r =? 32) || (r =? 133) || (r =? 160) ||
  (r =? 5760) || ((8192 <=? r) && (r <=? 8202)) || (r =? 8232) ||
  (r =? 8233) || (r =? 8239) || (r =? 8287) || (r =? 12288).

Fixpoint TrimLeftSpace (s : gostring) : gostring :=
  match s with
  | [] => []
  | r :: s' => if IsSpace r then TrimLeftSpace s' else s
  end.

(** [strings.TrimSpace]: leading and trailing white space removed. *)
Definition TrimSpace (s : gostring) : gostring :=
  rev (TrimLeftSpace (rev (TrimLeftSpace s))).

(** ** Errors of the API (errors.go) *)

Definition ErrRateLimited : error := errorString "lcsc: rate limit exceeded".
Definition ErrProductNotFound : error := errorString "lcsc: product not found".
Definition ErrInternalServer : error := errorString "lcsc: internal server error".
Definition ErrServiceUnavailable : error := errorString "lcsc: service unavailable".

Definition errorFromCode (code : Z) (message : gostring) : error :=
  match code with
  | 404 => ErrProductNotFound
  | 429 => ErrRateLimited
  | 500 => ErrInternalServer
  | 503 => ErrServiceUnavailable
  | _ => APIError code message
  end.

(** ** Models and library functions *)

Definition Values := list (gostring * list gostring).

Record apiResponse := mkApiResponse {
  Code : Z;
  Message : gostring;
  Result : bytes
}.

Record SearchRequest := mkSearchRequest {
  Keyword : gostring;
  CurrentPage : Z;
  PageSize : Z;
  IsAvailable : bool;
  MatchType : gostring
}.

Record searchRequestBody := mkSearchRequestBody {
  bodyKeyword : gostring
}.

Record SearchResponse (P : Type) := mkSearchResponse {
  Products : list P;
  TotalCount : Z;
  DirectMatchCode : gostring
}.

Record searchResponseWrapper (P : Type) := mkWrapper {
  ProductList : list P;
  WrapperTotalCount : Z;
  TipProductCode : option gostring
}.

Arguments mkSearchResponse {P}.
Arguments Products {P}.
Arguments TotalCount {P}.
Arguments DirectMatchCode {P}.
Arguments mkWrapper {P}.
Arguments ProductList {P}.
Arguments WrapperTotalCount {P}.
Arguments TipProductCode {P}.

(** The pure functions of the Go libraries the client calls
    ([net/url], [encoding/json], [net/http]), and the product type they
    decode into. *)
Record Libs := mkLibs {
  Product : Type;
  zeroProduct : Product;
  encodeValues : Values -> gostring;
  marshalRequestBody : searchRequestBody -> error + bytes;
  newRequest : gostring -> gostring -> option error;
  unmarshalApiResponse : bytes -> error + apiResponse;
  unmarshalWrapper : bytes -> error + searchResponseWrapper Product;
  unmarshalProduct : bytes -> error + Product;
  unmarshalSearchResponse : bytes -> error + SearchResponse Product;
  marshalSearchResponse : SearchResponse Product -> error + bytes;
  marshalProduct : Product -> error + bytes
}.

(** Modelled from the spec: the cache configuration of cache.go, which is
    not among the sources; the default values are the ones
    [TestDefaultCacheConfig] expects. *)
Record CacheConfig := mkCacheConfig {
  Enabled : bool;
  SearchTTL : Duration;
  DetailsTTL : Duration
}.

Definition DefaultCacheConfig : CacheConfig :=
  {| Enabled := true;
     SearchTTL := 5 * Minute;
     DetailsTTL := 10 * Minute |}.

(** ** Client *)

Record Client := mkClient {
  baseURL : gostring;
  currency : gostring;
  retryConfig : RetryConfig
}.

Definition defaultBaseURL : gostring := runes "https://wmsc.lcsc.com/ftps/wm".
Definition defaultCurrency : gostring := runes "USD".
Definition defaultRateLimit : Q := 5.
Definition MethodGet : gostring := runes "GET".

Definition unwrapBytes (b : option bytes) : bytes :=
  match b with
  | Some x => x
  | None => []
  end.

Definition lenValues (params : option Values) : Z :=
  match params with
  | Some vs => Z.of_nat (List.length vs)
  | None => 0
  end.

Section ClientModel.

Context {C : Type} {cacheOps : Cache C}.
Variable L : Libs.
Variable w : World.
Variable fuel : nat.
Variable c : Client.

Local Open Scope go_scope.

(** [c.cache.Get(key)] *)
Definition cacheGetM (key : gostring) : M (C := C) (option bytes) := fun st =>
  match cache st with
  | Some c0 =>
      let r := cacheGet c0 key in
      Some (fst r,
            mkState (clockPos st) (selectPos st) (randPos st) (tripPos st)
              (limiter st) (Some (snd r))
              (EvCacheGet key (match fst r with Some _ => true | None => false end)
                 :: trace st))
  | None => Some (None, st)
  end.

(** [c.cache.Set(key, value, ttl)] *)
Definition cacheSetM (key : gostring) (value : bytes) (ttl : Duration) : M (C := C) unit :=
  fun st =>
  match cache st with
  | Some c0 =>
      Some (tt,
            mkState (clockPos st) (selectPos st) (randPos st) (tripPos st)
              (limiter st) (Some (cacheSet c0 key value ttl))
              (EvCacheSet key value ttl :: trace st))
  | None => Some (tt, st)
  end.

(** [sleep(ctx, d)] *)
Definition sleep (d : Duration) : M (C := C) (option error) :=
  done <- selectCtx w ;;
  emit (EvBackoffSleep d (match done with Some _ => true | None => false end)) ;;;
  ret done.

(** The call [c.retryConfig.calculateBackoff(attempt)] with its read of
    the random source. *)
Definition backoffDelay (attempt : Z) : M (C := C) Duration :=
  if Qlt_bool 0 (Jitter (retryConfig c)) then
    u <- randomFloat w ;;
    ret (calculateBackoff (retryConfig c) attempt u)
  else
    ret (calculateBackoff (retryConfig c) attempt 0%Q).

(** [buildCacheKey] *)
Definition buildCacheKey (method path : gostring) (params : option Values) : gostring :=
  let key := method ++ runes ":" ++ currency c ++ runes ":" ++ path in
  match params with
  | Some vs => key ++ runes "?" ++ encodeValues L vs
  | None => key
  end.

(** [executeRequest], up to the call of [httpClient.Do]: the URL, the
    marshalled body, the request object. *)
Definition prepareRequest (method path : gostring) (params : option Values)
    (body : option searchRequestBody) : error + gostring :=
  let reqURL := baseURL c ++ path in
  let reqURL :=
    if 0 <? lenValues params
    then reqURL ++ runes "?" ++ encodeValues L (match params with Some vs => vs | None => [] end)
    else reqURL in
  match match body with
        | Some b =>
            match marshalRequestBody L b with
            | inl e => Some e
            | inr _ => None
            end
        | None => None
        end
  with
  | Some e => inl (wrapError "failed to marshal request body: %w" (Some e))
  | None =>
      match newRequest L method reqURL with
      | Some e => inl (wrapError "failed to create request: %w" (Some e))
      | None => inr reqURL
      end
  end.

(** [executeRequest], from the result of [httpClient.Do] on. *)
Definition readResponse (resp : httpResult) : option bytes * Z * option error :=
  match resp with
  | DoError e => (None, 0, Some (wrapError "request failed: %w" (Some e)))
  | Response status (inl e) =>
      (None, status, Some (wrapError "failed to read response: %w" (Some e)))
  | Response status (inr respBody) =>
      if negb (status =? 200)
      then (None, status, Some (errorfInt "unexpected status code: %d" status))
      else (Some respBody, status, None)
  end.

Definition executeRequest (method path : gostring) (params : option Values)
    (body : option searchRequestBody) : M (C := C) (option bytes * Z * option error) :=
  match prepareRequest method path params body with
  | inl e => ret (None, 0, Some e)
  | inr reqURL =>
      resp <- httpDo w method reqURL ;;
      ret (readResponse resp)
  end.

(** The [for] loop of [doRequest]; [remaining] counts the iterations left,
    [MaxRetries + 1 - attempt]. *)
Fixpoint attemptLoop (method path : gostring) (params : option Values)
    (body : option searchRequestBody) (cacheKey : gostring)
    (remaining : nat) (attempt : Z) (lastErr : option error)
  : M (C := C) (option bytes * option error) :=
  match remaining with
  | O => ret (None, Some (wrapError "max retries exceeded: %w" lastErr))
  | S remaining' =>
      slept <- (if 0 <? attempt
                then waitTime <- backoffDelay (attempt - 1) ;; sleep waitTime
                else ret None) ;;
      match slept with
      | Some err => ret (None, Some err)
      | None =>
          werr <- Wait w fuel ;;
          match werr with
          | Some err => ret (None, Some (wrapError "rate limiter: %w" (Some err)))
          | None =>
              r <- executeRequest method path params body ;;
              match snd r with
              | Some err =>
                  if shouldRetry (Some err) (snd (fst r))
                  then attemptLoop method path params body cacheKey
                         remaining' (attempt + 1) (Some err)
                  else ret (None, Some err)
              | None =>
                  has <- hasCache ;;
                  (if negb (isEmpty cacheKey) && has
                   then cacheSetM cacheKey (unwrapBytes (fst (fst r))) (5 * Minute)
                   else ret tt) ;;;
                  ret (fst (fst r), None)
              end
          end
      end
  end.

(** [doRequest] *)
Definition doRequest (method path : gostring) (params : option Values)
    (body : option searchRequestBody) : M (C := C) (option bytes * option error) :=
  has <- hasCache ;;
  if gostring_eqb method MethodGet && has then
    let cacheKey := buildCacheKey method path params in
    cached <- cacheGetM cacheKey ;;
    match cached with
    | Some b => ret (Some b, None)
    | None =>
        attemptLoop method path params body cacheKey
          (Z.to_nat (MaxRetries (retryConfig c) + 1)) 0 None
    end
  else
    attemptLoop method path params body []
      (Z.to_nat (MaxRetries (retryConfig c) + 1)) 0 None.

(** [parseResponse], for a result decoded by [decode] into a variable
    holding [zero]. *)
Definition parseResponse {A : Type} (decode : bytes -> error + A) (zero : A)
    (body : bytes) : error + A :=
  match unmarshalApiResponse L body with
  | inl e => inl (wrapError "failed to parse response: %w" (Some e))
  | inr resp =>
      if negb (Code resp =? 200) then inl (errorFromCode (Code resp) (Message resp))
      else if 0 <? Z.of_nat (List.length (Result resp)) then
        match decode (Result resp) with
        | inl e => inl (wrapError "failed to parse result: %w" (Some e))
        | inr a => inr a
        end
      else inr zero
  end.

Definition getCacheKeySearch (keyword : gostring) : gostring :=
  runes "search:" ++ currency c ++ runes ":" ++ keyword.

Definition getCacheKeyProduct (productCode : gostring) : gostring :=
  runes "product:" ++ currency c ++ runes ":" ++ productCode.

(** The lookup both endpoints start with: a hit counts only if the cached
    bytes decode. *)
Definition cachedResult {A : Type} (decode : bytes -> error + A) (cacheKey : gostring)
  : M (C := C) (option A) :=
  has <- hasCache ;;
  if has then
    cached <- cacheGetM cacheKey ;;
    match cached with
    | Some b =>
        match decode b with
        | inr a => ret (Some a)
        | inl _ => ret None
        end
    | None => ret None
    end
  else ret None.

(** The store both endpoints end with. *)
Definition storeResult {A : Type} (encode : A -> error + bytes) (cacheKey : gostring)
    (a : A) (ttl : Duration) : M (C := C) unit :=
  has <- hasCache ;;
  if has then
    match encode a with
    | inr cacheData => cacheSetM cacheKey cacheData ttl
    | inl _ => ret tt
    end
  else ret tt.

(** [KeywordSearch] *)
Definition KeywordSearch (req : SearchRequest)
  : M (C := C) (option (SearchResponse (Product L)) * option error) :=
  let keyword := TrimSpace (Keyword req) in
  if isEmpty keyword then ret (None, Some (errorString "keyword is required"))
  else
    let cacheKey := getCacheKeySearch keyword in
    hit <- cachedResult (unmarshalSearchResponse L) cacheKey ;;
    match hit with
    | Some resp => ret (Some resp, None)
    | None =>
        r <- doRequest (runes "POST") (runes "/search/v2/global") None
               (Some (mkSearchRequestBody keyword)) ;;
        match snd r with
        | Some err => ret (None, Some err)
        | None =>
            match parseResponse (unmarshalWrapper L) (mkWrapper [] 0 None)
                    (unwrapBytes (fst r)) with
            | inl err => ret (None, Some err)
            | inr wrapper =>
                let resp :=
                  mkSearchResponse (ProductList wrapper) (WrapperTotalCount wrapper)
                    (match TipProductCode wrapper with
                     | Some code => if negb (isEmpty code) then code else []
                     | None => []
                     end) in
                storeResult (marshalSearchResponse L) cacheKey resp (5 * Minute) ;;;
                ret (Some resp, None)
            end
        end
    end.

(** [GetProductDetails] *)
Definition GetProductDetails (productCode : gostring)
  : M (C := C) (option (Product L) * option error) :=
  let productCode := TrimSpace productCode in
  if isEmpty productCode then ret (None, Some (errorString "productCode is required"))
  else
    let cacheKey := getCacheKeyProduct productCode in
    hit <- cachedResult (unmarshalProduct L) cacheKey ;;
    match hit with
    | Some product => ret (Some product, None)
    | None =>
        let params : Values := [(runes "productCode", [productCode])] in
        r <- doRequest MethodGet (runes "/product/detail") (Some params) None ;;
        match snd r with
        | Some err => ret (None, Some err)
        | None =>
            match parseResponse (unmarshalProduct L) (zeroProduct L)
                    (unwrapBytes (fst r)) with
            | inl err => ret (None, Some err)
            | inr product =>
                storeResult (marshalProduct L) cacheKey product (5 * Minute) ;;;
                ret (Some product, None)
            end
        end
    end.

End ClientModel.

(** ** Reading traces *)

Fixpoint roundTrips (tr : list event) : nat :=
  match tr with
  | [] => O
  | EvRoundTrip _ _ :: tr' => S (roundTrips tr')
  | _ :: tr' => roundTrips tr'
  end.

Fixpoint backoffSleeps (tr : list event) : nat :=
  match tr with
  | [] => O
  | EvBackoffSleep _ _ :: tr' => S (backoffSleeps tr')
  | _ :: tr' => backoffSleeps tr'
  end.

(** The TTLs handed to [Cache.Set], oldest call last. *)
Fixpoint storedTTLs (tr : list event) : list Duration :=
  match tr with
  | [] => []
  | EvCacheSet _ _ ttl :: tr' => ttl :: storedTTLs tr'
  | _ :: tr' => storedTTLs tr'
  end.

(** An attempt whose outcome sends [doRequest] round the loop again. *)
Definition retryableFailure (r : option bytes * Z * option error) : Prop :=
  snd r <> None /\ shouldRetry (snd r) (snd (fst r)) = true.

(** ** A concrete client *)

(** Modelled from the spec: the in-memory store behind the [Cache]
    interface (cache.go is not among the sources), reduced to a table from
    keys to values.  It keeps the TTL each entry was stored with and never
    expires an entry. *)
Definition TableCache := list (gostring * (bytes * Duration)).

Fixpoint tableLookup (key : gostring) (t : TableCache) : option bytes :=
  match t with
  | [] => None
  | (k, (v, _)) :: t' => if gostring_eqb k key then Some v else tableLookup key t'
  end.

Definition tableStore (t : TableCache) (key : gostring) (v : bytes) (ttl : Duration)
  : TableCache :=
  (key, (v, ttl)) :: filter (fun e => negb (gostring_eqb (fst e) key)) t.

#[export] Instance tableCacheOps : Cache TableCache :=
  {| cacheGet := fun t key => (tableLookup key t, t);
     cacheSet := tableStore |}.

(** Library functions for running the model: a product is its product
    code, JSON documents are the code points of their text, and every
    response has the envelope code 200. *)
Definition plainLibs : Libs :=
  {| Product := gostring;
     zeroProduct := [];
     encodeValues := fun vs => List.concat (map (fun kv => fst kv ++ runes "=" ++ List.concat (snd kv)) vs);
     marshalRequestBody := fun b => inr (bodyKeyword b);
     newRequest := fun _ _ => None;
     unmarshalApiResponse := fun b => inr (mkApiResponse 200 (runes "success") b);
     unmarshalWrapper := fun b => inr (mkWrapper [b] 1 None);
     unmarshalProduct := fun b => inr b;
     unmarshalSearchResponse := fun b => inr (mkSearchResponse [b] 1 []);
     marshalSearchResponse := fun r => inr (List.concat (Products r));
     marshalProduct := fun p => inr p |}.

Definition defaultClient : Client :=
  {| baseURL := defaultBaseURL;
     currency := defaultCurrency;
     retryConfig := DefaultRetryConfig |}.

(** The world of [busyWorld] with a server that answers 200 and a body. *)
Definition servingWorld : World :=
  {| clock := fun n => Z.of_nat n * Millisecond;
     ctxDone := fun _ => None;
     randFloat64 := fun _ => 1 # 2;
     roundTrip := fun _ => Response 200 (inr (runes "C8734")) |}.

Definition blankKeyword : gostring := [32; 9; 160; 8195; 10].

Definition blankRequest : SearchRequest :=
  mkSearchRequest blankKeyword 1 10 false (runes "fuzzy").

(** A cache that already holds the answer to [GET /product/detail]. *)
Definition warmCache : TableCache :=
  tableStore []
    (buildCacheKey plainLibs defaultClient MethodGet (runes "/product/detail") None)
    (runes "cached") (5 * Minute).

Definition warmState : State TableCache :=
  initState (NewRateLimiter defaultRateLimit 0) (Some warmCache).

Definition coldState : State TableCache :=
  initState (NewRateLimiter defaultRateLimit 0) (Some []).

(** [follows st st']: [st'] comes after [st] in a run of the client.  A
    configured cache stays configured, the trace only grows, and every
    [Cache.Set] logged in between was given a TTL of five minutes. *)
Definition follows {C : Type} (st st' : State C) : Prop :=
  (cache st = None <-> cache st' = None) /\
  (tripPos st <= tripPos st')%nat /\
  exists evs, trace st' = evs ++ trace st /\
              Forall (fun ttl => ttl = 5 * Minute) (storedTTLs evs).

(** ** Conditions under which the limiter hands out tokens *)

(** The context is never cancelled, the clock never runs backwards and
    time does not stop. *)
Definition steadyWorld (w : World) : Prop :=
  (forall n, ctxDone w n = None) /\
  (forall n, clock w n <= clock w (S n)) /\
  (forall t : Instant, exists n, t <= clock w n).

(** A bucket that refills, can hold a whole token, and whose timestamp is
    not ahead of the clock. *)
Definition canGrant {C : Type} (w : World) (st : State C) : Prop :=
  (0 < refillRate (limiter st))%Q /\
  (1 <= maxTokens (limiter st))%Q /\
  lastRefill (limiter st) <= clock w (clockPos st).

(** Backoff sleeps due in [remaining] iterations starting at [attempt]. *)
Fixpoint sleepsDue (remaining : nat) (attempt : Z) : nat :=
  match remaining with
  | O => O
  | S k => (if 0 <? attempt then 1%nat else 0%nat) + sleepsDue k (attempt + 1)
  end.


Definition detailPath : gostring := runes "/product/detail".

Definition detailURL : gostring := defaultBaseURL ++ detailPath.

(* ================================================================== *)
(** * Part I, continued: further code of the package *)
(* ================================================================== *)


Section Callers.

Context {C : Type}.
Variable w : World.
Variable fuel : nat.

Local Open Scope go_scope.

(** [n] calls of [Wait] in a row, as in
    [for i := 0; i < n; i++ { if err := rl.Wait(ctx); err != nil { ... } }]:
    the first error ends the loop. *)
Fixpoint waitTimes (n : nat) : M (C := C) (option error) :=
  match n with
  | O => ret None
  | S n' =>
      err <- Wait w fuel ;;
      match err with
      | Some e => ret (Some e)
      | None => waitTimes n'
      end
  end.

End Callers.

(** ** Accounting of a run *)

(** Calls of [Cache.Get] and [Cache.Set] in a stretch of the trace. *)
Fixpoint cacheCalls (tr : list event) : nat :=
  match tr with
  | [] => O
  | EvCacheGet _ _ :: tr' => S (cacheCalls tr')
  | EvCacheSet _ _ _ :: tr' => S (cacheCalls tr')
  | _ :: tr' => cacheCalls tr'
  end.

(** [spent st st' trips taken sleeps calls]: between [st] and [st'] the
    trace gained [trips] round trips, [taken] tokens taken from the
    limiter, [sleeps] backoff sleeps and [calls] calls of the cache; the
    transport stream advanced by the round trips, and the cache is the
    same when it was not called. *)
Definition spent {C : Type} (st st' : State C) (trips taken sleeps calls : nat) : Prop :=
  roundTrips (trace st') = (roundTrips (trace st) + trips)%nat /\
  tokensTaken (trace st') = (tokensTaken (trace st) + taken)%nat /\
  backoffSleeps (trace st') = (backoffSleeps (trace st) + sleeps)%nat /\
  cacheCalls (trace st') = (cacheCalls (trace st) + calls)%nat /\
  tripPos st' = (tripPos st + trips)%nat /\
  (calls = O -> cache st' = cache st).

(** What [doRequest] returns once an attempt is not to be retried. *)
Definition verdict (r : option bytes * Z * option error) : option bytes * option error :=
  match snd r with
  | Some err => (None, Some err)
  | None => (fst (fst r), None)
  end.

(** The cache after that attempt: the body is stored when the attempt
    succeeded and the request has a key. *)
Definition cacheAfter {C : Type} {cacheOps : Cache C} (cacheKey : gostring)
    (r : option bytes * Z * option error) (before : option C) : option C :=
  match snd r, before with
  | None, Some c0 =>
      if isEmpty cacheKey then Some c0
      else Some (cacheSet c0 cacheKey (unwrapBytes (fst (fst r))) (5 * Minute))
  | _, _ => before
  end.

(** ** Further worlds used to run the model *)

(** The world of [busyWorld] with a server that answers 503 twice and then
    200 with a body. *)
Definition flakyWorld : World :=
  {| clock := fun n => Z.of_nat n * Millisecond;
     ctxDone := fun _ => None;
     randFloat64 := fun _ => 1 # 2;
     roundTrip := fun n => if (n <? 2)%nat then Response 503 (inr [])
                           else Response 200 (inr (runes "C8734")) |}.

(** The same world with a server that always answers 404. *)
Definition missingWorld : World :=
  {| clock := fun n => Z.of_nat n * Millisecond;
     ctxDone := fun _ => None;
     randFloat64 := fun _ => 1 # 2;
     roundTrip := fun _ => Response 404 (inr []) |}.

(** [quiet st st']: between [st] and [st'] the trace only grew, and
    [Cache.Set] was not called. *)
Definition quiet {C : Type} (st st' : State C) : Prop :=
  exists evs, trace st' = evs ++ trace st /\ storedTTLs evs = [].

(** The world of [busyWorld] with a context that is cancelled from the
    start. *)
Definition cancelledWorld : World :=
  {| clock := fun n => Z.of_nat n * Millisecond;
     ctxDone := fun _ => Some ctxCanceled;
     randFloat64 := fun _ => 1 # 2;
     roundTrip := fun _ => Response 503 (inr []) |}.



(** The library functions of [plainLibs] with responses whose envelope
    carries the code 404. *)
Definition refusingLibs : Libs :=
  {| Product := gostring;
     zeroProduct := [];
     encodeValues := encodeValues plainLibs;
     marshalRequestBody := fun b => inr (bodyKeyword b);
     newRequest := fun _ _ => None;
     unmarshalApiResponse := fun b => inr (mkApiResponse 404 (runes "not found") []);
     unmarshalWrapper := fun b => inr (mkWrapper [b] 1 None);
     unmarshalProduct := fun b => inr b;
     unmarshalSearchResponse := fun b => inr (mkSearchResponse [b] 1 []);
     marshalSearchResponse := fun r => inr (List.concat (Products r));
     marshalProduct := fun p => inr p |}.

(** ** [parseRetryAfter] *)



Section RetryAfter.

(** [strconv.Atoi] and [time.Parse(time.RFC1123, _)]; [None] stands for a
    non-nil error. *)
Variable Atoi : gostring -> option Z.
Variable parseRFC1123 : gostring -> option Instant.


End RetryAfter.

(* ================================================================== *)
(** * Part II: properties *)
(* ================================================================== *)

Local Open Scope Q_scope.

(** ** Arithmetic helpers *)

Lemma Qlt_bool_true (x y : Q) : Qlt_bool x y = true <-> x < y.
Proof.
  unfold Qlt_bool. rewrite negb_true_iff.
  split; intro H.
  - apply Qnot_le_lt. intro Hle. apply Qle_bool_iff in Hle. congruence.
  - destruct (Qle_bool y x) eqn:E; [| reflexivity].
    apply Qle_bool_iff in E. exfalso. exact (Qlt_not_le _ _ H E).
Qed.

Lemma Qlt_bool_false (x y : Q) : Qlt_bool x y = false <-> y <= x.
Proof.
  unfold Qlt_bool. rewrite negb_false_iff. apply Qle_bool_iff.
Qed.

Lemma truncQ_inject (z : Z) : truncQ (inject_Z z) = z.
Proof.
  unfold truncQ. destruct (Qle_bool 0 (inject_Z z)).
  - apply Qfloor_Z.
  - apply Qceiling_Z.
Qed.




Lemma powLoop_acc (n : nat) (b acc : Q) :
  powLoop n b acc == acc * b ^ Z.of_nat n.
Proof.
  revert acc. induction n as [| n IH]; intro acc.
  - simpl. ring.
  - rewrite Nat2Z.inj_succ. cbn [powLoop]. rewrite IH.
    unfold Z.succ. rewrite Qpower_plus' by lia.
    rewrite Qpower_1_r. ring.
Qed.


(** ** Retry policy *)



Lemma isTimeoutError_spec (e : option error) :
  isTimeoutError e = true <-> exists k, asNetError e = Some (k, true).
Proof.
  unfold isTimeoutError. destruct (asNetError e) as [[k t] |]; cbn.
  - split.
    + intros ->. now exists k.
    + intros [k' H]. now inversion H.
  - split; [discriminate | intros [k H]; discriminate].
Qed.

Lemma retryableStatus_spec (s : Z) :
  retryableStatus s = true <-> In s [429; 500; 502; 503; 504]%Z.
Proof.
  split.
  - intro H.
    destruct (Z.eq_dec s 429) as [-> | n1]; [cbn; tauto |].
    destruct (Z.eq_dec s 500) as [-> | n2]; [cbn; tauto |].
    destruct (Z.eq_dec s 502) as [-> | n3]; [cbn; tauto |].
    destruct (Z.eq_dec s 503) as [-> | n4]; [cbn; tauto |].
    destruct (Z.eq_dec s 504) as [-> | n5]; [cbn; tauto |].
    exfalso. unfold retryableStatus in H.
    repeat match type of H with
           | context [match ?x with _ => _ end] => destruct x; try discriminate; try congruence
           end.
  - cbn. intros [<- | [<- | [<- | [<- | [<- | []]]]]]; reflexivity.
Qed.



(** C7: with a 100ms initial delay, multiplier 2 and no jitter the first
    three delays are 100ms, 200ms and 400ms, each capped at [MaxBackoff]. *)
Theorem calculateBackoff_growth (retries : Z) (maxB : Duration) (draw : Q) :
  calculateBackoff (mkRetryConfig retries (100 * Millisecond)%Z maxB 2 0) 0 draw
    = Z.min (100 * Millisecond)%Z maxB /\
  calculateBackoff (mkRetryConfig retries (100 * Millisecond)%Z maxB 2 0) 1 draw
    = Z.min (200 * Millisecond)%Z maxB /\
  calculateBackoff (mkRetryConfig retries (100 * Millisecond)%Z maxB 2 0) 2 draw
    = Z.min (400 * Millisecond)%Z maxB.
Proof.
  assert (step : forall d : Z,
    truncQ (if Qlt_bool (inject_Z maxB) (inject_Z d) then inject_Z maxB else inject_Z d)
    = Z.min d maxB).
  { intro d. destruct (Qlt_bool (inject_Z maxB) (inject_Z d)) eqn:E.
    - apply Qlt_bool_true in E. rewrite <- Zlt_Qlt in E.
      rewrite truncQ_inject. lia.
    - apply Qlt_bool_false in E. rewrite <- Zle_Qle in E.
      rewrite truncQ_inject. lia. }
  unfold calculateBackoff; cbn [InitialBackoff MaxBackoff Multiplier Jitter].
  change (Qlt_bool 0 0) with false. cbv iota.
  repeat split.
  - change (inject_Z (100 * Millisecond)%Z * pow 2 (inject_Z 0))
      with (inject_Z (100 * Millisecond)%Z). apply step.
  - change (inject_Z (100 * Millisecond)%Z * pow 2 (inject_Z 1))
      with (inject_Z (200 * Millisecond)%Z). apply step.
  - change (inject_Z (100 * Millisecond)%Z * pow 2 (inject_Z 2))
      with (inject_Z (400 * Millisecond)%Z). apply step.
Qed.







(** ** Rate limiter *)

Section LimiterFacts.

Context {C : Type}.
Variable w : World.

(** One turn of the loop of [Wait], spelt out on the state. *)
Lemma Wait_unfold (fuel : nat) (st : State C) :
  Wait w (S fuel) st =
  let r := refill (clock w (clockPos st)) (limiter st) in
  if Qle_bool 1 (tokens r) then
    Some (None,
          mkState (S (clockPos st)) (selectPos st) (randPos st) (tripPos st)
            (takeToken r) (cache st) (EvTokenTaken :: trace st))
  else
    match ctxDone w (selectPos st) with
    | Some e =>
        Some (Some e,
              mkState (S (clockPos st)) (S (selectPos st)) (randPos st) (tripPos st)
                r (cache st) (EvLimiterSelect (waitTimeFor r) true :: trace st))
    | None =>
        Wait w fuel
          (mkState (S (clockPos st)) (S (selectPos st)) (randPos st) (tripPos st)
             r (cache st) (EvLimiterSelect (waitTimeFor r) false :: trace st))
    end.
Proof.
  cbn [Wait].
  cbv beta iota delta [bind timeNow getLimiter putLimiter emit ret selectCtx].
  cbn [limiter clockPos selectPos randPos tripPos cache trace].
  destruct (Qle_bool 1 (tokens (refill (clock w (clockPos st)) (limiter st)))).
  - reflexivity.
  - cbv beta iota delta [bind putLimiter emit ret selectCtx].
    cbn [limiter clockPos selectPos randPos tripPos cache trace].
    destruct (ctxDone w (selectPos st)); reflexivity.
Qed.

End LimiterFacts.

Lemma Seconds_nonneg (d : Duration) : (0 <= d)%Z -> 0 <= Seconds d.
Proof.
  intro H. unfold Seconds. apply Qle_shift_div_l.
  - reflexivity.
  - rewrite Qmult_0_l. rewrite Zle_Qle in H. exact H.
Qed.

Lemma refill_fields (now : Instant) (r : RateLimiter) :
  maxTokens (refill now r) = maxTokens r /\
  refillRate (refill now r) = refillRate r /\
  lastRefill (refill now r) = now.
Proof. repeat split. Qed.

Lemma refill_tokens_cases (now : Instant) (r : RateLimiter) :
  let t := tokens r + Seconds (Sub now (lastRefill r)) * refillRate r in
  (maxTokens r < t /\ tokens (refill now r) = maxTokens r) \/
  (t <= maxTokens r /\ tokens (refill now r) = t).
Proof.
  cbn. unfold refill. cbn [tokens].
  destruct (Qlt_bool (maxTokens r)
              (tokens r + Seconds (Sub now (lastRefill r)) * refillRate r)) eqn:E.
  - left. apply Qlt_bool_true in E. now split.
  - right. apply Qlt_bool_false in E. now split.
Qed.

Lemma refill_gain_nonneg (now : Instant) (r : RateLimiter) :
  0 <= refillRate r -> (lastRefill r <= now)%Z ->
  0 <= Seconds (Sub now (lastRefill r)) * refillRate r.
Proof.
  intros Hr Hn. apply Qmult_le_0_compat; [| exact Hr].
  apply Seconds_nonneg. unfold Sub. lia.
Qed.

Lemma refill_inv (now : Instant) (r : RateLimiter) :
  bucketInv r -> 0 <= refillRate r -> (lastRefill r <= now)%Z ->
  bucketInv (refill now r).
Proof.
  intros [H0 H1] Hr Hn. unfold bucketInv.
  pose proof (refill_gain_nonneg now r Hr Hn) as Hg.
  destruct (refill_fields now r) as [-> _].
  destruct (refill_tokens_cases now r) as [[Hc ->] | [Hc ->]]; split; lra.
Qed.

Lemma refill_grows (now : Instant) (r : RateLimiter) :
  bucketInv r -> 0 <= refillRate r -> (lastRefill r <= now)%Z ->
  tokens r <= tokens (refill now r).
Proof.
  intros [H0 H1] Hr Hn.
  pose proof (refill_gain_nonneg now r Hr Hn) as Hg.
  destruct (refill_tokens_cases now r) as [[Hc ->] | [Hc ->]]; lra.
Qed.

Lemma takeToken_inv (r : RateLimiter) :
  bucketInv r -> 1 <= tokens r ->
  bucketInv (takeToken r) /\ tokens (takeToken r) + 1 <= maxTokens r.
Proof.
  intros [H0 H1] H. unfold bucketInv, takeToken. cbn. repeat split; lra.
Qed.

(** The facts every finished call of [Wait] satisfies, whatever it returns
    (shared by the statements below). *)
Lemma Wait_run {C : Type} (w : World) (fuel : nat) :
  forall (st st' : State C) (res : option error),
  Wait w fuel st = Some (res, st') ->
  (* frame *)
  randPos st' = randPos st /\ tripPos st' = tripPos st /\ cache st' = cache st /\
  maxTokens (limiter st') = maxTokens (limiter st) /\
  refillRate (limiter st') = refillRate (limiter st) /\
  (clockPos st < clockPos st')%nat /\
  lastRefill (limiter st') = clock w (pred (clockPos st')) /\
  (* what was logged *)
  (exists evs, trace st' = evs ++ trace st /\
     Forall (fun ev => ev = EvTokenTaken \/ exists d b, ev = EvLimiterSelect d b) evs /\
     tokensTaken evs = match res with None => 1%nat | Some _ => 0%nat end) /\
  (* a failure is the context's *)
  (forall e, res = Some e ->
     exists n, (selectPos st <= n < selectPos st')%nat /\ ctxDone w n = Some e).
Proof.
  induction fuel as [| fuel IH]; intros st st' res Hrun.
  - discriminate.
  - rewrite Wait_unfold in Hrun. cbv zeta in Hrun.
    set (r := refill (clock w (clockPos st)) (limiter st)) in *.
    destruct (Qle_bool 1 (tokens r)).
    + inversion Hrun; subst; clear Hrun. cbn.
      repeat split; try reflexivity; try lia.
      * exists [EvTokenTaken]. repeat split.
        constructor; [now left | constructor].
      * intros e He. discriminate.
    + destruct (ctxDone w (selectPos st)) as [e |] eqn:Hsel.
      * inversion Hrun; subst; clear Hrun. cbn.
        repeat split; try reflexivity; try lia.
        -- exists [EvLimiterSelect (waitTimeFor r) true]. repeat split.
           constructor; [right; eauto | constructor].
        -- intros e' He'. inversion He'; subst.
           exists (selectPos st). split; [lia | exact Hsel].
      * apply IH in Hrun. cbn in Hrun.
        destruct Hrun as (H1 & H2 & H3 & H4 & H5 & H6 & H7 & (evs & Ht & Hf & Hn) & Hc).
        repeat split; try assumption; try lia.
        -- exists (evs ++ [EvLimiterSelect (waitTimeFor r) false]). repeat split.
           ++ rewrite Ht. now rewrite <- app_assoc.
           ++ apply Forall_app. split; [exact Hf |].
              constructor; [right; eauto | constructor].
           ++ rewrite <- Hn. clear. induction evs as [| [] evs IHe]; cbn; auto.
        -- intros e He. destruct (Hc e He) as (n & Hn1 & Hn2).
           exists n. split; [lia | exact Hn2].
Qed.

(** Invariant and timestamps along a call, for a clock that never runs
    backwards. *)
Lemma Wait_inv {C : Type} (w : World) (fuel : nat) :
  (forall n, (clock w n <= clock w (S n))%Z) ->
  forall (st st' : State C) (res : option error),
  Wait w fuel st = Some (res, st') ->
  bucketInv (limiter st) -> 0 <= refillRate (limiter st) ->
  (lastRefill (limiter st) <= clock w (clockPos st))%Z ->
  bucketInv (limiter st') /\
  (lastRefill (limiter st') <= clock w (clockPos st'))%Z /\
  (res = None -> tokens (limiter st') + 1 <= maxTokens (limiter st')) /\
  (res <> None -> tokens (limiter st) <= tokens (limiter st')).
Proof.
  intro Hmono.
  induction fuel as [| fuel IH]; intros st st' res Hrun Hinv Hrate Hlast.
  - discriminate.
  - rewrite Wait_unfold in Hrun. cbv zeta in Hrun.
    pose proof (refill_inv _ _ Hinv Hrate Hlast) as Hinv'.
    pose proof (refill_grows _ _ Hinv Hrate Hlast) as Hgrow.
    set (r := refill (clock w (clockPos st)) (limiter st)) in *.
    destruct (Qle_bool 1 (tokens r)) eqn:E.
    + apply Qle_bool_iff in E.
      inversion Hrun; subst; clear Hrun. cbn.
      destruct (takeToken_inv r Hinv' E) as [Ht1 Ht2].
      repeat split; try apply Ht1; try apply Hmono.
      * intros _. exact Ht2.
      * intro Hne. congruence.
    + destruct (ctxDone w (selectPos st)) as [e |].
      * inversion Hrun; subst; clear Hrun. cbn.
        repeat split; try apply Hinv'; try apply Hmono.
        -- intro Hne. discriminate.
        -- intros _. exact Hgrow.
      * apply IH in Hrun; cbn; try assumption; try apply Hmono.
        cbn in Hrun. destruct Hrun as (H1 & H2 & H3 & H4).
        repeat split; try apply H1; try assumption.
        intro Hne. apply Qle_trans with (tokens r); [exact Hgrow | now apply H4].
Qed.

Lemma refill_tokens_min (now : Instant) (r : RateLimiter) :
  tokens (refill now r)
  == Qmin (tokens r + Seconds (Sub now (lastRefill r)) * refillRate r) (maxTokens r).
Proof.
  destruct (refill_tokens_cases now r) as [[Hc ->] | [Hc ->]]; cbv zeta in Hc.
  - symmetry. apply Q.min_r. now apply Qlt_le_weak.
  - symmetry. now apply Q.min_l.
Qed.

(** C5: a limiter built by [NewRateLimiter rps], [rps > 0], starts within
    [0 <= tokens <= maxTokens], and every call of [Wait] that returns leaves
    it there (the clock being monotonic, as Go's is).  The refill brings
    the count to [min (tokens + elapsed * refillRate) maxTokens], and a
    call that returns nil took a whole token that was there:
    [tokens + 1 <= maxTokens] afterwards.  Each turn of the loop keeps the
    invariant by itself, whichever caller runs it. *)
Theorem NewRateLimiter_Wait_invariant {C : Type} (w : World) (rps : Q) :
  0 < rps ->
  (forall n, (clock w n <= clock w (S n))%Z) ->
  (forall (st : State C) (t0 : Instant),
     limiter st = NewRateLimiter rps t0 -> (t0 <= clock w (clockPos st))%Z ->
     limiterOK w rps st) /\
  (forall (fuel : nat) (st st' : State C) (res : option error),
     limiterOK w rps st -> Wait w fuel st = Some (res, st') ->
     limiterOK w rps st' /\
     (res = None -> tokens (limiter st') + 1 <= maxTokens (limiter st'))) /\
  (forall (now : Instant) (r : RateLimiter),
     tokens (refill now r)
     == Qmin (tokens r + Seconds (Sub now (lastRefill r)) * refillRate r)
          (maxTokens r)) /\
  (forall (now : Instant) (r : RateLimiter),
     bucketInv r -> refillRate r = rps -> (lastRefill r <= now)%Z ->
     bucketInv (refill now r) /\
     (1 <= tokens (refill now r) -> bucketInv (takeToken (refill now r)))).
Proof.
  intros Hrps Hmono. split; [| split; [| split]].
  - intros st t0 Hl Ht. unfold limiterOK, bucketInv. rewrite Hl. cbn.
    repeat split; try exact Ht; lra.
  - intros fuel st st' res (Hmax & Hrate & Hinv & Hlast) Hrun.
    destruct (Wait_run w fuel st st' res Hrun) as (_ & _ & _ & Hm & Hr & _).
    assert (Hr0 : 0 <= refillRate (limiter st)) by (rewrite Hrate; lra).
    destruct (Wait_inv w fuel Hmono st st' res Hrun Hinv Hr0 Hlast)
      as (Hi & Hl & Htook & _).
    split; [| exact Htook].
    unfold limiterOK. rewrite Hm, Hr. repeat split; try assumption; apply Hi.
  - exact refill_tokens_min.
  - intros now r Hinv Hrate Hlast.
    assert (Hr0 : 0 <= refillRate r) by (rewrite Hrate; lra).
    pose proof (refill_inv now r Hinv Hr0 Hlast) as Hinv'.
    split; [exact Hinv' |]. intro Hone. now apply takeToken_inv.
Qed.

Lemma busyWorld_clock_mono (n : nat) :
  (clock busyWorld n <= clock busyWorld (S n))%Z.
Proof. cbn [clock busyWorld]. unfold Millisecond. lia. Qed.

Lemma NewRateLimiter_Wait_invariant_witness :
  limiterOK busyWorld 5 (initState (C := unit) (NewRateLimiter 5 0) None) /\
  exists st',
    Wait busyWorld 1 (initState (C := unit) (NewRateLimiter 5 0) None) = Some (None, st') /\
    limiterOK busyWorld 5 st'.
Proof.
  assert (Hpos : 0 < 5) by reflexivity.
  pose proof (NewRateLimiter_Wait_invariant (C := unit) busyWorld 5 Hpos
                busyWorld_clock_mono) as (Hinit & Hstep & _).
  assert (H0 : limiterOK busyWorld 5 (initState (C := unit) (NewRateLimiter 5 0) None)).
  { apply (Hinit _ 0%Z); [reflexivity | cbn; lia]. }
  split; [exact H0 |].
  eexists. split.
  - vm_compute. reflexivity.
  - apply (Hstep 1%nat _ _ None H0). vm_compute. reflexivity.
Defined.

(** C3: a call of [Wait] that returns an error returns the error the
    context reported in one of its [select]s, takes no token on the way,
    and leaves the bucket with at least the tokens it had. *)
Theorem Wait_cancelled_takes_no_token {C : Type} (w : World) (fuel : nat)
    (st st' : State C) (e : error) :
  Wait w fuel st = Some (Some e, st') ->
  (exists n, (selectPos st <= n < selectPos st')%nat /\ ctxDone w n = Some e) /\
  (exists evs, trace st' = evs ++ trace st /\ tokensTaken evs = 0%nat) /\
  ((forall n, (clock w n <= clock w (S n))%Z) ->
   bucketInv (limiter st) -> 0 <= refillRate (limiter st) ->
   (lastRefill (limiter st) <= clock w (clockPos st))%Z ->
   tokens (limiter st) <= tokens (limiter st')).
Proof.
  intro Hrun.
  destruct (Wait_run w fuel st st' (Some e) Hrun)
    as (_ & _ & _ & _ & _ & _ & _ & (evs & Ht & _ & Hn) & Hc).
  split; [now apply Hc |].
  split; [exists evs; now split |].
  intros Hmono Hinv Hrate Hlast.
  destruct (Wait_inv w fuel Hmono st st' (Some e) Hrun Hinv Hrate Hlast)
    as (_ & _ & _ & Hgrow).
  apply Hgrow. discriminate.
Qed.

Lemma Wait_cancelled_takes_no_token_witness :
  exists st',
    Wait cancellingWorld 5 (initState (C := unit) emptyBucket None)
      = Some (Some ctxCanceled, st') /\
    (exists evs, trace st' = evs ++ [] /\ tokensTaken evs = 0%nat) /\
    tokens emptyBucket <= tokens (limiter st').
Proof.
  assert (Hrun : exists st',
            Wait cancellingWorld 5 (initState (C := unit) emptyBucket None)
            = Some (Some ctxCanceled, st')).
  { eexists. vm_compute. reflexivity. }
  destruct Hrun as [st' Hrun]. exists st'. split; [exact Hrun |].
  destruct (Wait_cancelled_takes_no_token cancellingWorld 5
              (initState (C := unit) emptyBucket None) st' ctxCanceled Hrun)
    as (_ & Hnone & Hkeep).
  split; [exact Hnone |].
  apply Hkeep.
  - exact busyWorld_clock_mono.
  - split; vm_compute; discriminate.
  - vm_compute. discriminate.
  - vm_compute. discriminate.
Defined.

(** ** Client *)

Lemma gostring_eqb_refl (s : gostring) : gostring_eqb s s = true.
Proof.
  unfold gostring_eqb. destruct (list_eq_dec Z.eq_dec s s); congruence.
Qed.

Lemma TrimLeftSpace_blank (s : gostring) :
  forallb IsSpace s = true -> TrimLeftSpace s = [].
Proof.
  induction s as [| r s IH]; cbn [forallb TrimLeftSpace]; [reflexivity |].
  intro H. apply andb_true_iff in H as [Hr Hs]. rewrite Hr. now apply IH.
Qed.

Lemma TrimSpace_blank (s : gostring) :
  forallb IsSpace s = true -> TrimSpace s = [].
Proof.
  intro H. unfold TrimSpace. now rewrite (TrimLeftSpace_blank s H).
Qed.

Lemma bind_Some {C A B : Type} (m : M (C := C) A) (f : A -> M (C := C) B)
    (st st' : State C) (r : B) :
  bind m f st = Some (r, st') ->
  exists a st1, m st = Some (a, st1) /\ f a st1 = Some (r, st').
Proof.
  unfold bind. destruct (m st) as [[a st1] |]; [| discriminate].
  intro H. now exists a, st1.
Qed.

Lemma hasCache_run {C : Type} (st : State C) :
  hasCache st = Some (match cache st with Some _ => true | None => false end, st).
Proof. reflexivity. Qed.

Lemma bind_run {C A B : Type} (m : M (C := C) A) (f : A -> M (C := C) B)
    (st st1 : State C) (a : A) :
  m st = Some (a, st1) -> bind m f st = f a st1.
Proof. unfold bind. now intros ->. Qed.

Lemma storedTTLs_app (xs ys : list event) :
  storedTTLs (xs ++ ys) = storedTTLs xs ++ storedTTLs ys.
Proof.
  induction xs as [| [] xs IH]; cbn; try assumption; [reflexivity |].
  now rewrite IH.
Qed.

Lemma storedTTLs_limiter (evs : list event) :
  Forall (fun ev => ev = EvTokenTaken \/ exists d b, ev = EvLimiterSelect d b) evs ->
  storedTTLs evs = [].
Proof.
  induction 1 as [| ev evs [-> | (d & b & ->)] _ IH]; cbn; auto.
Qed.

Lemma follows_refl {C : Type} (st : State C) : follows st st.
Proof.
  repeat split; auto. exists []. split; [reflexivity | constructor].
Qed.

Lemma follows_trans {C : Type} (st1 st2 st3 : State C) :
  follows st1 st2 -> follows st2 st3 -> follows st1 st3.
Proof.
  intros (Hc1 & Hp1 & evs1 & Ht1 & Hf1) (Hc2 & Hp2 & evs2 & Ht2 & Hf2).
  split; [tauto |]. split; [lia |].
  exists (evs2 ++ evs1). split.
  - rewrite Ht2, Ht1. apply app_assoc.
  - rewrite storedTTLs_app. apply Forall_app. now split.
Qed.

Lemma follows_cache_some {C : Type} (st st' : State C) :
  follows st st' -> cache st <> None -> exists c1, cache st' = Some c1.
Proof.
  intros (Hc & _) Hn. destruct (cache st') as [c1 |]; [now exists c1 |].
  exfalso. apply Hn. now apply Hc.
Qed.

(** A step that logs one event other than a [Cache.Set], or a
    five-minute [Cache.Set]. *)
Lemma follows_step {C : Type} (st : State C) (cp sp rp tp : nat) (r : RateLimiter)
    (c' : option C) (ev : event) :
  (cache st = None <-> c' = None) ->
  (tripPos st <= tp)%nat ->
  Forall (fun ttl => ttl = (5 * Minute)%Z) (storedTTLs [ev]) ->
  follows st (mkState cp sp rp tp r c' (ev :: trace st)).
Proof.
  intros Hc Hp Hev. split; [exact Hc |]. split; [exact Hp |].
  exists [ev]. split; [reflexivity | exact Hev].
Qed.

Section ClientFacts.

Context {C : Type} {cacheOps : Cache C}.
Variable L : Libs.
Variable w : World.
Variable fuel : nat.
Variable c : Client.

(** C6: a GET whose key is in the configured cache returns the cached
    bytes and a nil error; the state differs only by the [Get] itself: no
    clock reading, no [select], no random draw, no round trip, and the
    limiter as it was. *)
Theorem doRequest_cache_hit (path : gostring) (params : option Values)
    (body : option searchRequestBody) (st : State C) (c0 : C) (b : bytes) :
  cache st = Some c0 ->
  fst (cacheGet c0 (buildCacheKey L c MethodGet path params)) = Some b ->
  doRequest L w fuel c MethodGet path params body st =
  Some ((Some b, None),
        mkState (clockPos st) (selectPos st) (randPos st) (tripPos st) (limiter st)
          (Some (snd (cacheGet c0 (buildCacheKey L c MethodGet path params))))
          (EvCacheGet (buildCacheKey L c MethodGet path params) true :: trace st)).
Proof.
  intros Hc Hhit. unfold doRequest, bind, hasCache.
  rewrite Hc, gostring_eqb_refl. cbn [andb].
  unfold cacheGetM. rewrite Hc. cbv zeta. rewrite Hhit. reflexivity.
Qed.

(** C9: a keyword, or a product code, made of white space only (or empty)
    is refused with an error and a nil result, and the state (cache,
    limiter, streams of the world, trace) is left as it was. *)
Theorem blank_input_rejected (req : SearchRequest) (productCode : gostring)
    (st : State C) :
  forallb IsSpace (Keyword req) = true ->
  forallb IsSpace productCode = true ->
  KeywordSearch L w fuel c req st
    = Some ((None, Some (errorString "keyword is required")), st) /\
  GetProductDetails L w fuel c productCode st
    = Some ((None, Some (errorString "productCode is required")), st).
Proof.
  intros Hk Hp. unfold KeywordSearch, GetProductDetails.
  rewrite (TrimSpace_blank _ Hk), (TrimSpace_blank _ Hp). split; reflexivity.
Qed.

End ClientFacts.

Lemma doRequest_cache_hit_witness :
  exists st',
    doRequest plainLibs busyWorld 1 defaultClient MethodGet (runes "/product/detail")
      None None warmState
    = Some ((Some (runes "cached"), None), st') /\
    clockPos st' = 0%nat /\ selectPos st' = 0%nat /\ randPos st' = 0%nat /\
    tripPos st' = 0%nat /\ limiter st' = NewRateLimiter 5 0.
Proof.
  eexists. split.
  - apply (doRequest_cache_hit plainLibs busyWorld 1 defaultClient
             (runes "/product/detail") None None warmState warmCache (runes "cached")).
    + reflexivity.
    + vm_compute. reflexivity.
  - repeat split.
Defined.

Lemma blank_input_rejected_witness :
  KeywordSearch plainLibs busyWorld 1 defaultClient blankRequest coldState
    = Some ((None, Some (errorString "keyword is required")), coldState) /\
  GetProductDetails plainLibs busyWorld 1 defaultClient blankKeyword coldState
    = Some ((None, Some (errorString "productCode is required")), coldState).
Proof.
  apply (blank_input_rejected plainLibs busyWorld 1 defaultClient blankRequest
           blankKeyword coldState).
  - vm_compute. reflexivity.
  - vm_compute. reflexivity.
Defined.

(** ** Runs of the client *)

Tactic Notation "bind_inv" hyp(H) "as" ident(a) ident(st1) ident(Hm) :=
  apply bind_Some in H; destruct H as (a & st1 & Hm & H).

Lemma Wait_follows {C : Type} (w : World) (fuel : nat) (st st' : State C)
    (res : option error) :
  Wait w fuel st = Some (res, st') ->
  follows st st' /\ tripPos st' = tripPos st.
Proof.
  intro Hrun.
  destruct (Wait_run w fuel st st' res Hrun)
    as (_ & Htp & Hc & _ & _ & _ & _ & (evs & Ht & Hf & _) & _).
  split; [| exact Htp].
  split; [now rewrite Hc |]. split; [lia |].
  exists evs. split; [exact Ht |].
  rewrite (storedTTLs_limiter evs Hf). constructor.
Qed.

Section ClientRuns.

Context {C : Type} {cacheOps : Cache C}.
Variable L : Libs.
Variable w : World.
Variable fuel : nat.
Variable c : Client.

Lemma sleep_follows (d : Duration) (st st' : State C) (res : option error) :
  sleep w d st = Some (res, st') ->
  follows st st' /\ tripPos st' = tripPos st.
Proof.
  unfold sleep, bind, selectCtx, emit, ret. cbn. intro H. inversion H; subst; clear H.
  split; [| reflexivity].
  apply follows_step; cbn; [tauto | lia | constructor].
Qed.

Lemma backoffDelay_follows (attempt : Z) (st st' : State C) (d : Duration) :
  backoffDelay w c attempt st = Some (d, st') ->
  follows st st' /\ tripPos st' = tripPos st.
Proof.
  unfold backoffDelay. destruct (Qlt_bool 0 (Jitter (retryConfig c))).
  - unfold bind, randomFloat, ret. cbn. intro H. inversion H; subst; clear H.
    split; [| reflexivity].
    split; [tauto |]. split; [cbn; lia |].
    exists []. split; [reflexivity | constructor].
  - unfold ret. intro H. inversion H; subst. split; [apply follows_refl | reflexivity].
Qed.

Lemma cacheGetM_follows (key : gostring) (st st' : State C) (r : option bytes) :
  cacheGetM key st = Some (r, st') ->
  follows st st' /\ tripPos st' = tripPos st.
Proof.
  unfold cacheGetM. destruct (cache st) as [c0 |] eqn:Hc.
  - cbv zeta. intro H. inversion H; subst; clear H. split; [| reflexivity].
    apply follows_step; cbn; [| lia | constructor].
    rewrite Hc. split; discriminate.
  - intro H. inversion H; subst. split; [apply follows_refl | reflexivity].
Qed.

Lemma cacheSetM_five_minutes (key : gostring) (v : bytes) (st st' : State C) :
  cacheSetM key v (5 * Minute)%Z st = Some (tt, st') ->
  follows st st' /\ tripPos st' = tripPos st /\
  (forall c0, cache st = Some c0 ->
     cache st' = Some (cacheSet c0 key v (5 * Minute)%Z) /\
     trace st' = EvCacheSet key v (5 * Minute)%Z :: trace st).
Proof.
  unfold cacheSetM. destruct (cache st) as [c0 |] eqn:Hc.
  - intro H. inversion H; subst; clear H. split; [| split; [reflexivity |]].
    + apply follows_step; cbn; [| lia | repeat constructor].
      rewrite Hc. split; discriminate.
    + intros c1 Hc1. inversion Hc1; subst. cbn. split; reflexivity.
  - intro H. inversion H; subst. split; [apply follows_refl |].
    split; [reflexivity | discriminate].
Qed.

Lemma executeRequest_follows (method path : gostring) (params : option Values)
    (body : option searchRequestBody) (st st' : State C)
    (r : option bytes * Z * option error) :
  executeRequest L w c method path params body st = Some (r, st') ->
  follows st st' /\
  (snd r = None ->
   tripPos st' = S (tripPos st) /\ exists b, fst (fst r) = Some b).
Proof.
  unfold executeRequest.
  destruct (prepareRequest L c method path params body) as [e | reqURL].
  - unfold ret. intro H. inversion H; subst. split; [apply follows_refl |].
    cbn. discriminate.
  - unfold bind, httpDo, ret. intro H. inversion H; subst; clear H.
    split.
    + apply follows_step; cbn; [tauto | lia | constructor].
    + intro Hok. split; [reflexivity |].
      destruct (roundTrip w (tripPos st)) as [e | status [e | b]]; cbn in *;
        try discriminate.
      destruct (negb (status =? 200)%Z); cbn in *; [discriminate | eauto].
Qed.

Lemma attemptLoop_follows (method path : gostring) (params : option Values)
    (body : option searchRequestBody) (cacheKey : gostring) (remaining : nat) :
  forall (attempt : Z) (lastErr : option error) (st st' : State C)
         (r : option bytes * option error),
  attemptLoop L w fuel c method path params body cacheKey remaining attempt lastErr st
    = Some (r, st') ->
  follows st st' /\
  (snd r = None ->
   (tripPos st < tripPos st')%nat /\
   (isEmpty cacheKey = false -> cache st <> None ->
    exists b c1 tr,
      fst r = Some b /\
      cache st' = Some (cacheSet c1 cacheKey b (5 * Minute)%Z) /\
      trace st' = EvCacheSet cacheKey b (5 * Minute)%Z :: tr)).
Proof.
  induction remaining as [| remaining IH]; intros attempt lastErr st st' r Hrun.
  - cbn in Hrun. inversion Hrun; subst. split; [apply follows_refl |].
    cbn. discriminate.
  - cbn [attemptLoop] in Hrun. bind_inv Hrun as slept st1 Hsleep.
    assert (Hs : follows st st1 /\ tripPos st1 = tripPos st).
    { destruct (0 <? attempt)%Z.
      - bind_inv Hsleep as d st0 Hdelay.
        apply backoffDelay_follows in Hdelay as [Hf1 Hp1].
        apply sleep_follows in Hsleep as [Hf2 Hp2].
        split; [eapply follows_trans; eassumption | congruence].
      - inversion Hsleep; subst. split; [apply follows_refl | reflexivity]. }
    destruct Hs as [Hf1 Hp1].
    destruct slept as [err |].
    { inversion Hrun; subst. split; [exact Hf1 | cbn; discriminate]. }
    bind_inv Hrun as werr st2 Hwait. apply Wait_follows in Hwait as [Hf2 Hp2].
    destruct werr as [err |].
    { inversion Hrun; subst.
      split; [eapply follows_trans; eassumption | cbn; discriminate]. }
    bind_inv Hrun as res st3 Hexec.
    apply executeRequest_follows in Hexec as [Hf3 Hp3].
    assert (Hf13 : follows st st3).
    { eapply follows_trans; [| exact Hf3].
      eapply follows_trans; eassumption. }
    destruct (snd res) as [err |] eqn:Hres.
    + destruct (shouldRetry (Some err) (snd (fst res))).
      * apply IH in Hrun as [Hf4 Hp4].
        split; [eapply follows_trans; eassumption |].
        intro Hok. destruct (Hp4 Hok) as [Hlt Hstore].
        split; [destruct Hf3 as (_ & Hle & _); lia |].
        intros Hkey Hcache. apply Hstore; [exact Hkey |].
        destruct (follows_cache_some _ _ Hf13 Hcache) as [c3 Hc3]. congruence.
      * inversion Hrun; subst. split; [exact Hf13 | cbn; discriminate].
    + destruct (Hp3 eq_refl) as [Htrip [b Hb]].
      bind_inv Hrun as has st4 Hhas.
      unfold hasCache in Hhas. inversion Hhas; subst; clear Hhas.
      bind_inv Hrun as u st5 Hset. inversion Hrun; subst; clear Hrun.
      rewrite Hb in *. cbn [unwrapBytes fst snd] in *.
      destruct (isEmpty cacheKey) eqn:Hkey; cbn [negb andb] in Hset.
      * inversion Hset; subst. split; [exact Hf13 |].
        intros _. split; [lia | discriminate].
      * destruct (cache st4) as [c4 |] eqn:Hc4.
        -- destruct u. apply cacheSetM_five_minutes in Hset as (Hf5 & Hp5 & Hst).
           split; [eapply follows_trans; eassumption |].
           intros _. split; [lia |]. intros _ _.
           destruct (Hst c4 Hc4) as [Hs1 Hs2].
           exists b, c4, (trace st4). now repeat split.
        -- inversion Hset; subst. split; [exact Hf13 |].
           intros _. split; [lia |]. intros _ Hcache.
           destruct (follows_cache_some _ _ Hf13 Hcache) as [c3 Hc3]. congruence.
Qed.

Lemma doRequest_follows (method path : gostring) (params : option Values)
    (body : option searchRequestBody) (st st' : State C)
    (r : option bytes * option error) :
  doRequest L w fuel c method path params body st = Some (r, st') ->
  follows st st'.
Proof.
  unfold doRequest. intro Hrun. bind_inv Hrun as has st1 Hhas.
  unfold hasCache in Hhas. inversion Hhas; subst; clear Hhas.
  destruct (gostring_eqb method MethodGet &&
            match cache st1 with Some _ => true | None => false end).
  - bind_inv Hrun as cached st2 Hget. apply cacheGetM_follows in Hget as [Hf1 _].
    destruct cached as [b |].
    + inversion Hrun; subst. exact Hf1.
    + apply attemptLoop_follows in Hrun as [Hf2 _].
      eapply follows_trans; eassumption.
  - now apply attemptLoop_follows in Hrun as [Hf2 _].
Qed.

Lemma cachedResult_follows {A : Type} (decode : bytes -> error + A)
    (key : gostring) (st st' : State C) (r : option A) :
  cachedResult decode key st = Some (r, st') ->
  follows st st' /\ tripPos st' = tripPos st.
Proof.
  unfold cachedResult. intro Hrun. bind_inv Hrun as has st1 Hhas.
  unfold hasCache in Hhas. inversion Hhas; subst; clear Hhas.
  destruct (cache st1).
  - bind_inv Hrun as cached st2 Hget. apply cacheGetM_follows in Hget.
    destruct cached as [b |]; [destruct (decode b) |]; inversion Hrun; subst; exact Hget.
  - inversion Hrun; subst. split; [apply follows_refl | reflexivity].
Qed.

Lemma storeResult_five_minutes {A : Type} (encode : A -> error + bytes)
    (key : gostring) (a : A) (data : bytes) (st st' : State C) (u : unit) :
  storeResult encode key a (5 * Minute)%Z st = Some (u, st') ->
  follows st st' /\
  (encode a = inr data -> forall c0, cache st = Some c0 ->
     cache st' = Some (cacheSet c0 key data (5 * Minute)%Z) /\
     trace st' = EvCacheSet key data (5 * Minute)%Z :: trace st).
Proof.
  unfold storeResult. intro Hrun. bind_inv Hrun as has st1 Hhas.
  unfold hasCache in Hhas. inversion Hhas; subst; clear Hhas.
  destruct (cache st1) as [c0 |] eqn:Hc.
  - destruct (encode a) as [e | d].
    + inversion Hrun; subst. split; [apply follows_refl | discriminate].
    + destruct u. apply cacheSetM_five_minutes in Hrun as (Hf & _ & Hset).
      split; [exact Hf |]. intros Hd c1 Hc1. inversion Hd; subst.
      apply Hset. congruence.
  - inversion Hrun; subst. split; [apply follows_refl |].
    intros _ c1 Hc1. discriminate.
Qed.

Lemma buildCacheKey_nonempty (path : gostring) (params : option Values) :
  isEmpty (buildCacheKey L c MethodGet path params) = false.
Proof. unfold buildCacheKey. destruct params; reflexivity. Qed.

Lemma doRequest_stores (path : gostring) (params : option Values)
    (body : option searchRequestBody) (st st' : State C) (b : bytes) :
  cache st <> None ->
  doRequest L w fuel c MethodGet path params body st = Some ((Some b, None), st') ->
  tripPos st' <> tripPos st ->
  exists c1 tr,
    cache st' = Some (cacheSet c1 (buildCacheKey L c MethodGet path params) b
                        (5 * Minute)%Z) /\
    trace st' = EvCacheSet (buildCacheKey L c MethodGet path params) b
                  (5 * Minute)%Z :: tr.
Proof.
  intros Hcache Hrun Htrip. unfold doRequest in Hrun.
  rewrite (bind_run _ _ _ _ _ (hasCache_run st)) in Hrun. cbv beta in Hrun.
  rewrite gostring_eqb_refl in Hrun.
  destruct (cache st) as [c0 |] eqn:Hc; [| congruence]. cbn [andb] in Hrun.
  bind_inv Hrun as cached st1 Hget.
  apply cacheGetM_follows in Hget as [Hf1 Hp1].
  destruct cached as [hit |].
  - inversion Hrun; subst. congruence.
  - apply attemptLoop_follows in Hrun as [_ Hok].
    destruct (Hok eq_refl) as [_ Hstore].
    destruct (Hstore (buildCacheKey_nonempty path params)) as (b' & c1 & tr & Hb & Hs1 & Hs2).
    + destruct (follows_cache_some st st1 Hf1) as [c1 Hc1]; congruence.
    + cbn in Hb. inversion Hb; subst. now exists c1, tr.
Qed.

End ClientRuns.

(** C8 (amended): when [KeywordSearch] or [GetProductDetails] succeeds
    after a round trip to the server, with a cache configured and a result
    that marshals, the last thing it does is store the marshalled result
    under the endpoint's key with a TTL of five minutes; every other
    [Cache.Set] of the call has the same TTL.  Likewise a GET that
    [doRequest] answers from the server ends with the raw response stored
    under the request's key for five minutes.  The TTL is the constant
    [5*time.Minute] at all three places. *)
Theorem results_stored_for_five_minutes {C : Type} {cacheOps : Cache C}
    (L : Libs) (w : World) (fuel : nat) (c : Client) :
  (forall (req : SearchRequest) (st st' : State C)
          (resp : SearchResponse (Product L)) (data : bytes),
     cache st <> None ->
     KeywordSearch L w fuel c req st = Some ((Some resp, None), st') ->
     tripPos st' <> tripPos st ->
     marshalSearchResponse L resp = inr data ->
     follows st st' /\
     exists c1 tr,
       cache st' = Some (cacheSet c1 (getCacheKeySearch c (TrimSpace (Keyword req)))
                           data (5 * Minute)%Z) /\
       trace st' = EvCacheSet (getCacheKeySearch c (TrimSpace (Keyword req)))
                     data (5 * Minute)%Z :: tr) /\
  (forall (productCode : gostring) (st st' : State C)
          (product : Product L) (data : bytes),
     cache st <> None ->
     GetProductDetails L w fuel c productCode st = Some ((Some product, None), st') ->
     tripPos st' <> tripPos st ->
     marshalProduct L product = inr data ->
     follows st st' /\
     exists c1 tr,
       cache st' = Some (cacheSet c1 (getCacheKeyProduct c (TrimSpace productCode))
                           data (5 * Minute)%Z) /\
       trace st' = EvCacheSet (getCacheKeyProduct c (TrimSpace productCode))
                     data (5 * Minute)%Z :: tr) /\
  (forall (path : gostring) (params : option Values)
          (body : option searchRequestBody) (st st' : State C) (b : bytes),
     cache st <> None ->
     doRequest L w fuel c MethodGet path params body st = Some ((Some b, None), st') ->
     tripPos st' <> tripPos st ->
     exists c1 tr,
       cache st' = Some (cacheSet c1 (buildCacheKey L c MethodGet path params) b
                           (5 * Minute)%Z) /\
       trace st' = EvCacheSet (buildCacheKey L c MethodGet path params) b
                     (5 * Minute)%Z :: tr).
Proof.
  split; [| split; [| apply doRequest_stores]].
  - intros req st st' resp data Hcache Hrun Htrip Hdata.
    unfold KeywordSearch in Hrun.
    destruct (isEmpty (TrimSpace (Keyword req))); [discriminate |].
    bind_inv Hrun as hit st1 Hhit.
    apply cachedResult_follows in Hhit as [Hf1 Hp1].
    destruct hit as [cachedResp |].
    { inversion Hrun; subst. congruence. }
    bind_inv Hrun as r st2 Hreq. apply doRequest_follows in Hreq.
    destruct (snd r); [discriminate |].
    destruct (parseResponse L (unmarshalWrapper L) (mkWrapper [] 0 None)
                (unwrapBytes (fst r))) as [e | wrapper]; [discriminate |].
    bind_inv Hrun as u st3 Hstore. inversion Hrun; subst; clear Hrun.
    apply (storeResult_five_minutes _ _ _ data) in Hstore as [Hf3 Hset].
    assert (Hf2 : follows st st2) by (eapply follows_trans; eassumption).
    split; [eapply follows_trans; eassumption |].
    destruct (follows_cache_some _ _ Hf2 Hcache) as [c2 Hc2].
    destruct (Hset Hdata c2 Hc2) as [Hs1 Hs2].
    exists c2, (trace st2). now split.
  - intros productCode st st' product data Hcache Hrun Htrip Hdata.
    unfold GetProductDetails in Hrun.
    destruct (isEmpty (TrimSpace productCode)); [discriminate |].
    bind_inv Hrun as hit st1 Hhit.
    apply cachedResult_follows in Hhit as [Hf1 Hp1].
    destruct hit as [cachedProduct |].
    { inversion Hrun; subst. congruence. }
    bind_inv Hrun as r st2 Hreq. apply doRequest_follows in Hreq.
    destruct (snd r); [discriminate |].
    destruct (parseResponse L (unmarshalProduct L) (zeroProduct L)
                (unwrapBytes (fst r))) as [e | parsed]; [discriminate |].
    bind_inv Hrun as u st3 Hstore. inversion Hrun; subst; clear Hrun.
    apply (storeResult_five_minutes _ _ _ data) in Hstore as [Hf3 Hset].
    assert (Hf2 : follows st st2) by (eapply follows_trans; eassumption).
    split; [eapply follows_trans; eassumption |].
    destruct (follows_cache_some _ _ Hf2 Hcache) as [c2 Hc2].
    destruct (Hset Hdata c2 Hc2) as [Hs1 Hs2].
    exists c2, (trace st2). now split.
Qed.

Lemma results_stored_for_five_minutes_witness :
  (exists st',
     GetProductDetails plainLibs servingWorld 1 defaultClient (runes " C8734 ") coldState
       = Some ((Some (runes "C8734"), None), st') /\
     exists c1 tr,
       cache st' = Some (cacheSet c1 (getCacheKeyProduct defaultClient (runes "C8734"))
                           (runes "C8734") (5 * Minute)%Z) /\
       trace st' = EvCacheSet (getCacheKeyProduct defaultClient (runes "C8734"))
                     (runes "C8734") (5 * Minute)%Z :: tr) /\
  (exists st',
     KeywordSearch plainLibs servingWorld 1 defaultClient
       (mkSearchRequest (runes "stm32") 1 10 false []) coldState
       = Some ((Some (mkSearchResponse [runes "C8734"] 1 []), None), st') /\
     exists c1 tr,
       cache st' = Some (cacheSet c1 (getCacheKeySearch defaultClient (runes "stm32"))
                           (runes "C8734") (5 * Minute)%Z) /\
       trace st' = EvCacheSet (getCacheKeySearch defaultClient (runes "stm32"))
                     (runes "C8734") (5 * Minute)%Z :: tr) /\
  (exists st',
     doRequest plainLibs servingWorld 1 defaultClient MethodGet detailPath None None
       coldState
       = Some ((Some (runes "C8734"), None), st') /\
     exists c1 tr,
       cache st' = Some (cacheSet c1
                           (buildCacheKey plainLibs defaultClient MethodGet detailPath None)
                           (runes "C8734") (5 * Minute)%Z) /\
       trace st' = EvCacheSet
                     (buildCacheKey plainLibs defaultClient MethodGet detailPath None)
                     (runes "C8734") (5 * Minute)%Z :: tr).
Proof.
  pose proof (results_stored_for_five_minutes plainLibs servingWorld 1 defaultClient)
    as (Hsearch & Hdetails & Hraw).
  split; [| split].
  - eexists. split; [vm_compute; reflexivity |].
    apply (Hdetails (runes " C8734 ") coldState _ (runes "C8734") (runes "C8734")).
    + discriminate.
    + vm_compute. reflexivity.
    + vm_compute. discriminate.
    + reflexivity.
  - eexists. split; [vm_compute; reflexivity |].
    apply (Hsearch (mkSearchRequest (runes "stm32") 1 10 false []) coldState _
             (mkSearchResponse [runes "C8734"] 1 []) (runes "C8734")).
    + discriminate.
    + vm_compute. reflexivity.
    + vm_compute. discriminate.
    + reflexivity.
  - eexists. split; [vm_compute; reflexivity |].
    apply (Hraw detailPath None None coldState _ (runes "C8734")).
    + discriminate.
    + vm_compute. reflexivity.
    + vm_compute. discriminate.
Defined.

(** C8 (as stated) fails for [GetProductDetails]: with the default
    configuration, whose details TTL is ten minutes, a successful call
    stores twice (the raw response in [doRequest], the product at the
    endpoint), both times for five minutes. *)
Lemma details_ttl_counterexample :
  DetailsTTL DefaultCacheConfig = (10 * Minute)%Z /\
  exists st',
    GetProductDetails plainLibs servingWorld 1 defaultClient (runes "C8734") coldState
      = Some ((Some (runes "C8734"), None), st') /\
    storedTTLs (trace st') = [(5 * Minute)%Z; (5 * Minute)%Z] /\
    ~ In (DetailsTTL DefaultCacheConfig) (storedTTLs (trace st')).
Proof.
  split; [reflexivity |].
  eexists. split; [vm_compute; reflexivity |].
  split; [reflexivity |].
  cbn. intros [H | [H | []]]; discriminate.
Qed.

(** ** Liveness of the limiter *)

Lemma clock_mono_le (w : World) :
  (forall n, (clock w n <= clock w (S n))%Z) ->
  forall a b, (a <= b)%nat -> (clock w a <= clock w b)%Z.
Proof.
  intros Hmono a b Hab. induction Hab as [| b Hab IH]; [lia |].
  specialize (Hmono b). lia.
Qed.

Lemma Wait_fuel_mono {C : Type} (w : World) (f : nat) :
  forall (f' : nat) (st : State C) (x : option error * State C),
  (f <= f')%nat -> Wait w f st = Some x -> Wait w f' st = Some x.
Proof.
  induction f as [| f IH]; intros f' st x Hle Hrun; [discriminate |].
  destruct f' as [| f']; [lia |].
  rewrite Wait_unfold in *. cbv zeta in *.
  destruct (Qle_bool 1 (tokens (refill (clock w (clockPos st)) (limiter st))));
    [exact Hrun |].
  destruct (ctxDone w (selectPos st)); [exact Hrun |].
  apply IH; [lia | exact Hrun].
Qed.

Lemma Seconds_plus (a b : Duration) : Seconds (a + b)%Z == Seconds a + Seconds b.
Proof.
  unfold Seconds. rewrite inject_Z_plus. field. discriminate.
Qed.

Lemma Seconds_le (a b : Duration) : (a <= b)%Z -> Seconds a <= Seconds b.
Proof.
  intro H. unfold Seconds. apply Qmult_le_compat_r.
  - now rewrite <- Zle_Qle.
  - apply Qinv_le_0_compat. discriminate.
Qed.

Lemma Wait_grants_within {C : Type} (w : World) :
  (forall n, ctxDone w n = None) ->
  (forall n, (clock w n <= clock w (S n))%Z) ->
  forall (k : nat) (st : State C),
  canGrant w st ->
  1 - tokens (limiter st)
    <= Seconds (Sub (clock w (clockPos st + k)) (lastRefill (limiter st)))
       * refillRate (limiter st) ->
  exists st', Wait w (S k) st = Some (None, st').
Proof.
  intros Hctx Hmono.
  induction k as [| k IH]; intros st (Hrate & Hmax & Hlast) Hdef;
    rewrite Wait_unfold; cbv zeta;
    destruct (refill_fields (clock w (clockPos st)) (limiter st)) as (Em & Er & El);
    destruct (refill_tokens_cases (clock w (clockPos st)) (limiter st))
      as [[Hc Et] | [Hc Et]]; cbv zeta in Hc;
    set (r := refill (clock w (clockPos st)) (limiter st)) in *.
  - assert (E : Qle_bool 1 (tokens r) = true) by (apply Qle_bool_iff; rewrite Et; exact Hmax).
    rewrite E. eauto.
  - rewrite Nat.add_0_r in Hdef.
    assert (E : Qle_bool 1 (tokens r) = true) by (apply Qle_bool_iff; rewrite Et; lra).
    rewrite E. eauto.
  - assert (E : Qle_bool 1 (tokens r) = true) by (apply Qle_bool_iff; rewrite Et; exact Hmax).
    rewrite E. eauto.
  - destruct (Qle_bool 1 (tokens r)) eqn:E; [eauto |].
    rewrite Hctx. apply IH.
    + unfold canGrant. cbn [limiter clockPos]. rewrite Em, Er, El.
      repeat split; try assumption. apply Hmono.
    + cbn [limiter clockPos]. rewrite Er, El, Et.
      replace (S (clockPos st) + k)%nat with (clockPos st + S k)%nat by lia.
      set (far := clock w (clockPos st + S k)) in *.
      set (now := clock w (clockPos st)) in *.
      assert (Esplit : Seconds (Sub far (lastRefill (limiter st)))
                       == Seconds (Sub far now) + Seconds (Sub now (lastRefill (limiter st)))).
      { rewrite <- Seconds_plus. unfold Sub.
        replace (far - now + (now - lastRefill (limiter st)))%Z
          with (far - lastRefill (limiter st))%Z by lia.
        reflexivity. }
      rewrite Esplit in Hdef.
      set (s1 := Seconds (Sub far now)) in *.
      set (s2 := Seconds (Sub now (lastRefill (limiter st)))) in *.
      set (rate := refillRate (limiter st)) in *.
      assert (Edist : (s1 + s2) * rate == s1 * rate + s2 * rate) by ring.
      rewrite Edist in Hdef. lra.
Qed.

(** With a steady world every call of [Wait] on such a bucket returns nil,
    for every amount of fuel above some bound. *)
Lemma Wait_grants {C : Type} (w : World) (st : State C) :
  steadyWorld w -> canGrant w st ->
  exists (fuel0 : nat) (st' : State C),
    (forall fuel, (fuel0 <= fuel)%nat -> Wait w fuel st = Some (None, st')) /\
    canGrant w st' /\
    randPos st' = randPos st /\ tripPos st' = tripPos st /\ cache st' = cache st /\
    exists evs, trace st' = evs ++ trace st /\
      Forall (fun ev => ev = EvTokenTaken \/ exists d b, ev = EvLimiterSelect d b) evs.
Proof.
  intros (Hctx & Hmono & Hfar) Hgrant.
  pose proof Hgrant as (Hrate & Hmax & Hlast).
  set (t := tokens (limiter st)) in *.
  set (rate := refillRate (limiter st)) in *.
  set (need := Qceiling ((1 - t) / rate * inject_Z Second)).
  destruct (Hfar (lastRefill (limiter st) + need)%Z) as [n Hn].
  set (k := (Nat.max n (clockPos st) - clockPos st)%nat).
  assert (Hk : (lastRefill (limiter st) + need <= clock w (clockPos st + k))%Z).
  { apply Z.le_trans with (clock w n); [exact Hn |].
    apply clock_mono_le; [exact Hmono | unfold k; lia]. }
  destruct (Wait_grants_within w Hctx Hmono k st Hgrant) as [st' Hrun].
  { fold t rate.
    apply Qle_trans with (Seconds need * rate).
    - unfold Seconds, need.
      pose proof (Qle_ceiling ((1 - t) / rate * inject_Z Second)) as Hceil.
      set (q := (1 - t) / rate * inject_Z Second) in *.
      assert (Eq : 1 - t == q / inject_Z Second * rate).
      { unfold q. field. split; [lra | discriminate]. }
      rewrite Eq. apply Qmult_le_compat_r; [| lra].
      apply Qmult_le_compat_r; [exact Hceil |].
      apply Qinv_le_0_compat. discriminate.
    - apply Qmult_le_compat_r; [| lra].
      apply Seconds_le. unfold Sub. lia. }
  exists (S k), st'.
  destruct (Wait_run w (S k) st st' None Hrun)
    as (Hrp & Htp & Hc & Hm & Hr & Hcp & Hl & (evs & Ht & Hf & _) & _).
  split; [| split; [| repeat split; try assumption]].
  - intros fuel Hfuel. exact (Wait_fuel_mono w (S k) fuel st _ Hfuel Hrun).
  - unfold canGrant. rewrite Hm, Hr, Hl. fold rate. repeat split; try assumption.
    destruct (clockPos st') as [| p]; [lia |]. cbn [pred]. apply Hmono.
  - exists evs. now split.
Qed.

(** The capacity condition of [canGrant] cannot be dropped: a bucket that
    cannot hold a whole token (a limiter built with a rate below one
    request per second) never grants, so without cancellation [Wait] does
    not return. *)
Lemma Wait_starves {C : Type} (w : World) (fuel : nat) :
  (forall n, ctxDone w n = None) ->
  forall st : State C, maxTokens (limiter st) < 1 -> Wait w fuel st = None.
Proof.
  intro Hctx. induction fuel as [| fuel IH]; intros st Hmax; [reflexivity |].
  rewrite Wait_unfold. cbv zeta.
  destruct (refill_fields (clock w (clockPos st)) (limiter st)) as (Em & _ & _).
  assert (Hlow : tokens (refill (clock w (clockPos st)) (limiter st)) < 1).
  { destruct (refill_tokens_cases (clock w (clockPos st)) (limiter st))
      as [[Hc ->] | [Hc ->]]; cbv zeta in Hc; lra. }
  destruct (Qle_bool 1 (tokens (refill (clock w (clockPos st)) (limiter st)))) eqn:E.
  - apply Qle_bool_iff in E. lra.
  - rewrite Hctx. apply IH. cbn [limiter]. now rewrite Em.
Qed.

(** ** The retry loop *)

Lemma roundTrips_app (xs ys : list event) :
  roundTrips (xs ++ ys) = (roundTrips xs + roundTrips ys)%nat.
Proof.
  induction xs as [| [] xs IH]; cbn; try assumption; [reflexivity |].
  now rewrite IH.
Qed.

Lemma backoffSleeps_app (xs ys : list event) :
  backoffSleeps (xs ++ ys) = (backoffSleeps xs + backoffSleeps ys)%nat.
Proof.
  induction xs as [| [] xs IH]; cbn; try assumption; [reflexivity |].
  now rewrite IH.
Qed.

Lemma limiter_events_counts (evs : list event) :
  Forall (fun ev => ev = EvTokenTaken \/ exists d b, ev = EvLimiterSelect d b) evs ->
  roundTrips evs = 0%nat /\ backoffSleeps evs = 0%nat.
Proof.
  induction 1 as [| ev evs [-> | (d & b & ->)] _ IH]; cbn; auto.
Qed.

Section RetryLoop.

Context {C : Type} {cacheOps : Cache C}.
Variable L : Libs.
Variable w : World.
Variable c : Client.

Local Open Scope go_scope.

Lemma backoff_phase (attempt : Z) (st : State C) :
  (forall n, ctxDone w n = None) ->
  exists st1,
    (if (0 <? attempt)%Z
     then waitTime <- backoffDelay w c (attempt - 1) ;; sleep w waitTime
     else ret None) st = Some (None, st1) /\
    limiter st1 = limiter st /\ clockPos st1 = clockPos st /\
    tripPos st1 = tripPos st /\ cache st1 = cache st /\
    exists evs, trace st1 = evs ++ trace st /\
      roundTrips evs = 0%nat /\
      backoffSleeps evs = (if (0 <? attempt)%Z then 1%nat else 0%nat).
Proof.
  intro Hctx. destruct (0 <? attempt)%Z.
  - unfold backoffDelay. destruct (Qlt_bool 0 (Jitter (retryConfig c)));
      unfold bind, randomFloat, sleep, bind, selectCtx, emit, ret;
      cbn [selectPos clockPos randPos tripPos limiter cache trace];
      rewrite Hctx; eexists; (split; [reflexivity |]);
      cbn [selectPos clockPos randPos tripPos limiter cache trace];
      repeat split;
      eexists [_]; repeat split.
  - unfold ret. exists st. repeat split. exists []. repeat split.
Qed.


End RetryLoop.



Lemma busyWorld_steady : steadyWorld busyWorld.
Proof.
  split; [| split].
  - reflexivity.
  - exact busyWorld_clock_mono.
  - intro t. exists (Z.to_nat t). cbn [clock busyWorld]. unfold Millisecond. lia.
Qed.


(* ================================================================== *)
(** * Part III: further properties of the code *)
(* ================================================================== *)

(** ** Retry policy: [pow] and [calculateBackoff] *)




(** X1: [pow base exp] is [base] raised to the whole part of [exp], and to
    0 when that is negative: a fractional exponent is truncated and a
    negative one gives 1, never a reciprocal. *)
Theorem pow_whole_exponent (base exp : Q) :
  pow base exp == base ^ Z.max 0 (truncQ exp).
Proof.
  unfold pow. rewrite powLoop_acc.
  replace (Z.of_nat (Z.to_nat (truncQ exp))) with (Z.max 0 (truncQ exp)) by lia.
  ring.
Qed.





(** ** Rate limiter: arithmetic of one turn *)

(** X4: refilling is exact: for a non-negative rate, a refill at [t1]
    followed by one at a later [t2] leaves the bucket as a single refill
    at [t2] does; no elapsed time is lost or counted twice by the lazy
    scheme. *)
Theorem refill_twice (t1 t2 : Instant) (r : RateLimiter) :
  0 <= refillRate r -> (t1 <= t2)%Z ->
  tokens (refill t2 (refill t1 r)) == tokens (refill t2 r) /\
  maxTokens (refill t2 (refill t1 r)) = maxTokens (refill t2 r) /\
  refillRate (refill t2 (refill t1 r)) = refillRate (refill t2 r) /\
  lastRefill (refill t2 (refill t1 r)) = lastRefill (refill t2 r).
Proof.
  intros Hrate Hle. split; [| repeat split].
  rewrite (refill_tokens_min t2 (refill t1 r)), (refill_tokens_min t2 r).
  destruct (refill_fields t1 r) as (-> & -> & ->).
  rewrite (refill_tokens_min t1 r).
  assert (Esplit : Seconds (Sub t2 (lastRefill r))
                   == Seconds (Sub t2 t1) + Seconds (Sub t1 (lastRefill r))).
  { rewrite <- Seconds_plus. unfold Sub.
    replace (t2 - t1 + (t1 - lastRefill r))%Z with (t2 - lastRefill r)%Z by lia.
    reflexivity. }
  assert (Hgain : 0 <= Seconds (Sub t2 t1) * refillRate r).
  { apply Qmult_le_0_compat; [| exact Hrate].
    apply Seconds_nonneg. unfold Sub. lia. }
  assert (Edist : Seconds (Sub t2 (lastRefill r)) * refillRate r
                  == Seconds (Sub t2 t1) * refillRate r
                     + Seconds (Sub t1 (lastRefill r)) * refillRate r).
  { rewrite Esplit. ring. }
  rewrite Edist.
  set (x2 := Seconds (Sub t2 t1) * refillRate r) in *.
  set (x1 := Seconds (Sub t1 (lastRefill r)) * refillRate r) in *.
  set (t := tokens r) in *. set (m := maxTokens r) in *.
  destruct (Q.min_spec (t + x1) m) as [[H1 E1] | [H1 E1]]; rewrite E1;
    destruct (Q.min_spec (t + x1 + x2) m) as [[H2 E2] | [H2 E2]];
    destruct (Q.min_spec (m + x2) m) as [[H3 E3] | [H3 E3]];
    destruct (Q.min_spec (t + (x2 + x1)) m) as [[H4 E4] | [H4 E4]];
    try rewrite E2; try rewrite E3; try rewrite E4; lra.
Qed.

Lemma refill_twice_witness :
  tokens (refill 700%Z (refill 300%Z emptyBucket)) == tokens (refill 700%Z emptyBucket).
Proof.
  apply (refill_twice 300%Z 700%Z emptyBucket).
  - vm_compute. discriminate.
  - lia.
Defined.



(** ** Rate limiter: calls of [Wait] *)

(** X6: in a steady world (no cancellation, a monotonic clock that keeps
    advancing) [Wait] on a bucket with a positive rate and room for a
    whole token returns nil, having taken exactly one token and touched
    neither the cache, the random source nor the transport. *)
Theorem Wait_eventually_grants {C : Type} (w : World) (st : State C) :
  steadyWorld w -> canGrant w st ->
  exists (fuel0 : nat) (st' : State C),
    (forall fuel, (fuel0 <= fuel)%nat -> Wait w fuel st = Some (None, st')) /\
    (exists evs, trace st' = evs ++ trace st /\ tokensTaken evs = 1%nat) /\
    randPos st' = randPos st /\ tripPos st' = tripPos st /\ cache st' = cache st.
Proof.
  intros Hworld Hgrant.
  destruct (Wait_grants w st Hworld Hgrant)
    as (fuel0 & st' & Hrun & _ & Hrp & Htp & Hc & _).
  exists fuel0, st'. split; [exact Hrun |].
  destruct (Wait_run w fuel0 st st' None (Hrun fuel0 (Nat.le_refl _)))
    as (_ & _ & _ & _ & _ & _ & _ & (evs & Ht & _ & Hn) & _).
  split; [exists evs; now split | now repeat split].
Qed.

Lemma Wait_eventually_grants_witness :
  exists (fuel0 : nat) (st' : State unit),
    (forall fuel, (fuel0 <= fuel)%nat ->
       Wait busyWorld fuel (initState emptyBucket None) = Some (None, st')) /\
    (exists evs, trace st' = evs ++ [] /\ tokensTaken evs = 1%nat) /\
    randPos st' = 0%nat /\ tripPos st' = 0%nat /\ cache st' = None.
Proof.
  apply (Wait_eventually_grants busyWorld (initState (C := unit) emptyBucket None)).
  - exact busyWorld_steady.
  - repeat split; vm_compute; discriminate.
Defined.

(** X7: a bucket that cannot hold a whole token never grants: every call
    of [Wait] that returns returns an error of the context.  This is the
    case of every limiter built by [NewRateLimiter] with a rate below one
    request per second, whose capacity equals its rate. *)
Theorem Wait_below_one_never_grants {C : Type} (w : World) (fuel : nat)
    (st st' : State C) (res : option error) :
  maxTokens (limiter st) < 1 ->
  Wait w fuel st = Some (res, st') ->
  exists e n, res = Some e /\ ctxDone w n = Some e.
Proof.
  intros Hmax Hrun.
  assert (Herr : exists e, res = Some e).
  { revert st Hmax Hrun. induction fuel as [| fuel IH]; intros st Hmax Hrun;
      [discriminate |].
    rewrite Wait_unfold in Hrun. cbv zeta in Hrun.
    destruct (refill_fields (clock w (clockPos st)) (limiter st)) as (Em & _ & _).
    assert (Hlow : tokens (refill (clock w (clockPos st)) (limiter st)) < 1).
    { destruct (refill_tokens_cases (clock w (clockPos st)) (limiter st))
        as [[Hc ->] | [Hc ->]]; cbv zeta in Hc; lra. }
    destruct (Qle_bool 1 (tokens (refill (clock w (clockPos st)) (limiter st)))) eqn:E.
    - apply Qle_bool_iff in E. lra.
    - destruct (ctxDone w (selectPos st)) as [e |].
      + inversion Hrun; subst. now exists e.
      + apply IH in Hrun; [exact Hrun |]. cbn [limiter]. now rewrite Em. }
  destruct Herr as [e ->]. exists e.
  destruct (Wait_run w fuel st st' (Some e) Hrun)
    as (_ & _ & _ & _ & _ & _ & _ & _ & Hctx).
  destruct (Hctx e eq_refl) as (n & _ & Hn). now exists n.
Qed.

Lemma Wait_below_one_never_grants_witness :
  exists e n,
    Some ctxCanceled = Some e /\ ctxDone cancellingWorld n = Some e.
Proof.
  assert (Hrun : exists st',
            Wait cancellingWorld 5
              (initState (C := unit) (NewRateLimiter (1 # 2) 0) None)
            = Some (Some ctxCanceled, st')).
  { eexists. vm_compute. reflexivity. }
  destruct Hrun as [st' Hrun].
  apply (Wait_below_one_never_grants cancellingWorld 5
           (initState (C := unit) (NewRateLimiter (1 # 2) 0) None) st'
           (Some ctxCanceled)).
  - reflexivity.
  - exact Hrun.
Defined.

(** X8: burst: with [n] tokens in the bucket and a monotonic clock, [n]
    calls of [Wait] in a row all return nil at their first turn, without
    waiting on the context or a timer; the bucket is left with at least
    the tokens it had minus [n]. *)
Theorem waitTimes_burst {C : Type} (w : World) (fuel n : nat) :
  (forall k, (clock w k <= clock w (S k))%Z) ->
  (1 <= fuel)%nat ->
  forall st : State C,
  bucketInv (limiter st) -> 0 <= refillRate (limiter st) ->
  (lastRefill (limiter st) <= clock w (clockPos st))%Z ->
  inject_Z (Z.of_nat n) <= tokens (limiter st) ->
  exists st',
    waitTimes w fuel n st = Some (None, st') /\
    clockPos st' = (clockPos st + n)%nat /\
    selectPos st' = selectPos st /\
    tokens (limiter st) - inject_Z (Z.of_nat n) <= tokens (limiter st') /\
    exists evs, trace st' = evs ++ trace st /\ tokensTaken evs = n.
Proof.
  intros Hmono Hfuel. destruct fuel as [| fuel]; [lia |]. clear Hfuel.
  induction n as [| n IH]; intros st Hinv Hrate Hlast Hn.
  - exists st. cbn [waitTimes]. unfold ret. repeat split.
    + lia.
    + change (inject_Z (Z.of_nat 0)) with 0. lra.
    + exists []. now split.
  - rewrite Nat2Z.inj_succ in Hn. unfold Z.succ in Hn.
    rewrite inject_Z_plus in Hn. change (inject_Z 1) with 1 in Hn.
    pose proof (refill_inv _ _ Hinv Hrate Hlast) as Hinv'.
    pose proof (refill_grows _ _ Hinv Hrate Hlast) as Hgrow.
    set (r := refill (clock w (clockPos st)) (limiter st)) in *.
    assert (Hnn : 0 <= inject_Z (Z.of_nat n)).
    { change 0 with (inject_Z 0). rewrite <- Zle_Qle. lia. }
    assert (Hone : 1 <= tokens r) by lra.
    set (st1 := mkState (S (clockPos st)) (selectPos st) (randPos st) (tripPos st)
                  (takeToken r) (cache st) (EvTokenTaken :: trace st)).
    assert (Hwait : Wait w (S fuel) st = Some (None, st1)).
    { rewrite Wait_unfold. cbv zeta. fold r.
      apply Qle_bool_iff in Hone. now rewrite Hone. }
    destruct (takeToken_inv r Hinv' Hone) as [Hinv1 _].
    destruct (IH st1) as (st' & Hrun & Hcp & Hsp & Htok & evs & Ht & Hcount).
    + exact Hinv1.
    + exact Hrate.
    + cbn [st1 limiter clockPos takeToken lastRefill r refill]. apply Hmono.
    + cbn [st1 limiter takeToken tokens]. lra.
    + exists st'. cbn [waitTimes]. rewrite (bind_run _ _ _ _ _ Hwait).
      split; [exact Hrun |]. cbn [st1 clockPos selectPos limiter trace] in *.
      split; [lia |]. split; [exact Hsp |]. split.
      * rewrite Nat2Z.inj_succ. unfold Z.succ. rewrite inject_Z_plus.
        change (inject_Z 1) with 1. cbn [takeToken tokens] in Htok. lra.
      * exists (evs ++ [EvTokenTaken]). split.
        -- rewrite Ht. now rewrite <- app_assoc.
        -- rewrite <- Hcount. clear. induction evs as [| [] evs IHe]; cbn; auto.
Qed.

Lemma waitTimes_burst_witness :
  exists st',
    waitTimes busyWorld 1 5 (initState (C := unit) (NewRateLimiter 5 0) None)
      = Some (None, st') /\
    clockPos st' = 5%nat /\ selectPos st' = 0%nat /\
    5 - inject_Z (Z.of_nat 5) <= tokens (limiter st') /\
    exists evs, trace st' = evs ++ [] /\ tokensTaken evs = 5%nat.
Proof.
  apply (waitTimes_burst busyWorld 1 5 busyWorld_clock_mono (Nat.le_refl 1)
           (initState (C := unit) (NewRateLimiter 5 0) None)).
  - split; vm_compute; discriminate.
  - vm_compute. discriminate.
  - vm_compute. discriminate.
  - vm_compute. discriminate.
Defined.

(** ** Client: outcomes of an attempt, envelopes, keys *)

(** X9: an attempt is one [doRequest] retries exactly when the server
    answered and the status is 429, 500, 502, 503 or 504.  A round trip
    that failed in [httpClient.Do] is never retried, whatever its error
    (timeouts included): [executeRequest] wraps the error and reports
    status 0. *)
Theorem retried_iff_retryable_status (rt : httpResult) :
  retryableFailure (readResponse rt) <->
  exists s r, rt = Response s r /\ In s [429; 500; 502; 503; 504]%Z.
Proof.
  unfold retryableFailure. split.
  - intros [Hne Hretry]. destruct rt as [e | s [e | b]]; cbn in *.
    + discriminate.
    + exists s, (inl e). split; [reflexivity |]. now apply retryableStatus_spec.
    + exists s, (inr b). split; [reflexivity |].
      destruct (negb (s =? 200)%Z); cbn in *; [| congruence].
      now apply retryableStatus_spec.
  - intros (s & r & -> & Hs). apply retryableStatus_spec in Hs.
    destruct r as [e | b]; cbn.
    + split; [discriminate | exact Hs].
    + destruct (Z.eqb_spec s 200) as [-> | Hne]; [discriminate |].
      cbn. split; [discriminate | exact Hs].
Qed.

Lemma errorFromCode_cases (code : Z) (message : gostring) :
  (code = 404%Z /\ errorFromCode code message = ErrProductNotFound) \/
  (code = 429%Z /\ errorFromCode code message = ErrRateLimited) \/
  (code = 500%Z /\ errorFromCode code message = ErrInternalServer) \/
  (code = 503%Z /\ errorFromCode code message = ErrServiceUnavailable) \/
  (~ In code [404; 429; 500; 503]%Z /\ errorFromCode code message = APIError code message).
Proof.
  destruct (Z.eq_dec code 404) as [-> | n1]; [now left |].
  destruct (Z.eq_dec code 429) as [-> | n2]; [right; now left |].
  destruct (Z.eq_dec code 500) as [-> | n3]; [right; right; now left |].
  destruct (Z.eq_dec code 503) as [-> | n4]; [right; right; right; now left |].
  right; right; right; right. split.
  - cbn. intuition congruence.
  - unfold errorFromCode.
    repeat match goal with
           | |- context [match ?x with _ => _ end] => destruct x; try congruence
           end.
Qed.

(** X10: the error [errorFromCode] builds tells the code apart: equal
    errors come from equal codes, and outside 404, 429, 500 and 503 from
    equal messages too.  (For those four codes the message is dropped.) *)
Theorem errorFromCode_identifies_code (c1 c2 : Z) (m1 m2 : gostring) :
  errorFromCode c1 m1 = errorFromCode c2 m2 ->
  c1 = c2 /\ (~ In c1 [404; 429; 500; 503]%Z -> m1 = m2).
Proof.
  intro Heq.
  destruct (errorFromCode_cases c1 m1)
    as [[H1 E1] | [[H1 E1] | [[H1 E1] | [[H1 E1] | [H1 E1]]]]];
  destruct (errorFromCode_cases c2 m2)
    as [[H2 E2] | [[H2 E2] | [[H2 E2] | [[H2 E2] | [H2 E2]]]]];
  rewrite E1, E2 in Heq; try discriminate Heq;
  try (subst; split; [reflexivity | intro Hn; exfalso; apply Hn; cbn; tauto]).
  inversion Heq; subst. split; [reflexivity | reflexivity].
Qed.

Lemma errorFromCode_identifies_code_witness :
  418%Z = 418%Z /\ (~ In 418%Z [404; 429; 500; 503]%Z -> runes "teapot" = runes "teapot").
Proof.
  apply (errorFromCode_identifies_code 418 418 (runes "teapot") (runes "teapot")).
  reflexivity.
Defined.

Section Envelopes.

Variable L : Libs.


End Envelopes.

Section Keys.

Variable L : Libs.
Variable c : Client.

(** X12: for one client the cache keys keep requests apart: different
    keywords, and different product codes, have different keys; a search
    key, a product key and the key of a GET never coincide; and for one
    path and one set of parameters different methods have different
    keys. *)
Theorem cache_keys_separate :
  (forall k1 k2, getCacheKeySearch c k1 = getCacheKeySearch c k2 -> k1 = k2) /\
  (forall p1 p2, getCacheKeyProduct c p1 = getCacheKeyProduct c p2 -> p1 = p2) /\
  (forall k p, getCacheKeySearch c k <> getCacheKeyProduct c p) /\
  (forall path params k,
     buildCacheKey L c MethodGet path params <> getCacheKeySearch c k /\
     buildCacheKey L c MethodGet path params <> getCacheKeyProduct c k) /\
  (forall m1 m2 path params,
     buildCacheKey L c m1 path params = buildCacheKey L c m2 path params -> m1 = m2).
Proof.
  split; [| split; [| split; [| split]]].
  - intros k1 k2 H. unfold getCacheKeySearch in H.
    rewrite !app_assoc in H. now apply app_inv_head in H.
  - intros p1 p2 H. unfold getCacheKeyProduct in H.
    rewrite !app_assoc in H. now apply app_inv_head in H.
  - intros k p H. unfold getCacheKeySearch, getCacheKeyProduct in H.
    cbn in H. discriminate H.
  - intros path params k. unfold buildCacheKey, getCacheKeySearch, getCacheKeyProduct.
    destruct params; split; intro H; cbn in H; discriminate H.
  - intros m1 m2 path params H. unfold buildCacheKey in H.
    destruct params as [vs |].
    + rewrite <- !app_assoc in H. now apply app_inv_tail in H.
    + now apply app_inv_tail in H.
Qed.

End Keys.


Lemma cache_keys_separate_witness :
  getCacheKeySearch defaultClient (runes "C8734")
  <> getCacheKeyProduct defaultClient (runes "C8734").
Proof.
  apply (proj1 (proj2 (proj2 (cache_keys_separate plainLibs defaultClient)))).
Defined.

(** ** Endpoints: what of the input counts *)

Lemma TrimLeftSpace_head (s : gostring) :
  match TrimLeftSpace s with
  | [] => True
  | r :: _ => IsSpace r = false
  end.
Proof.
  induction s as [| r s IH]; cbn [TrimLeftSpace]; [exact I |].
  destruct (IsSpace r) eqn:E; [exact IH | exact E].
Qed.

Lemma TrimLeftSpace_fixed (s : gostring) :
  match s with
  | [] => True
  | r :: _ => IsSpace r = false
  end ->
  TrimLeftSpace s = s.
Proof.
  destruct s as [| r s]; [reflexivity |]. cbn [TrimLeftSpace]. now intros ->.
Qed.

Lemma TrimLeftSpace_suffix (s : gostring) :
  exists p, s = p ++ TrimLeftSpace s.
Proof.
  induction s as [| r s [p IH]]; [now exists [] |].
  cbn [TrimLeftSpace]. destruct (IsSpace r).
  - exists (r :: p). cbn. now rewrite <- IH.
  - now exists [].
Qed.

Lemma TrimSpace_idempotent (s : gostring) :
  TrimSpace (TrimSpace s) = TrimSpace s.
Proof.
  unfold TrimSpace.
  set (a := TrimLeftSpace s).
  set (b := TrimLeftSpace (rev a)).
  assert (Hrev : TrimLeftSpace (rev b) = rev b).
  { apply TrimLeftSpace_fixed.
    destruct (TrimLeftSpace_suffix (rev a)) as [p Hp]. fold b in Hp.
    assert (Ha : a = rev b ++ rev p).
    { rewrite <- (rev_involutive a), Hp. apply rev_app_distr. }
    destruct (rev b) as [| r t]; [exact I |].
    pose proof (TrimLeftSpace_head s) as Hh. fold a in Hh.
    rewrite Ha in Hh. exact Hh. }
  rewrite Hrev, rev_involutive.
  assert (Hb : TrimLeftSpace b = b).
  { apply TrimLeftSpace_fixed. exact (TrimLeftSpace_head (rev a)). }
  now rewrite Hb.
Qed.

(** X13: the endpoints look at nothing but the trimmed keyword, or product
    code: white space around it makes no difference, and the fields
    [CurrentPage], [PageSize], [IsAvailable] and [MatchType] of the search
    request are never read. *)
Theorem endpoints_use_trimmed_input_only {C : Type} {cacheOps : Cache C}
    (L : Libs) (w : World) (fuel : nat) (c : Client)
    (req : SearchRequest) (page size : Z) (available : bool) (matchType : gostring)
    (productCode : gostring) (st : State C) :
  KeywordSearch L w fuel c req st
  = KeywordSearch L w fuel c
      (mkSearchRequest (TrimSpace (Keyword req)) page size available matchType) st /\
  GetProductDetails L w fuel c productCode st
  = GetProductDetails L w fuel c (TrimSpace productCode) st.
Proof.
  unfold KeywordSearch, GetProductDetails. cbn [Keyword].
  now rewrite !TrimSpace_idempotent.
Qed.

(** ** Accounting of the runs of [doRequest] *)

Lemma tokensTaken_app (xs ys : list event) :
  tokensTaken (xs ++ ys) = (tokensTaken xs + tokensTaken ys)%nat.
Proof.
  induction xs as [| [] xs IH]; cbn; try assumption; [reflexivity |].
  now rewrite IH.
Qed.

Lemma cacheCalls_app (xs ys : list event) :
  cacheCalls (xs ++ ys) = (cacheCalls xs + cacheCalls ys)%nat.
Proof.
  induction xs as [| [] xs IH]; cbn; try assumption; try reflexivity;
    now rewrite IH.
Qed.

Lemma limiter_events_no_cache (evs : list event) :
  Forall (fun ev => ev = EvTokenTaken \/ exists d b, ev = EvLimiterSelect d b) evs ->
  cacheCalls evs = 0%nat.
Proof.
  induction 1 as [| ev evs [-> | (d & b & ->)] _ IH]; cbn; auto.
Qed.

Lemma spent_refl {C : Type} (st : State C) : spent st st 0 0 0 0.
Proof. unfold spent. repeat split; auto. Qed.

Lemma spent_trans {C : Type} (st1 st2 st3 : State C) (a b c d a' b' c' d' : nat) :
  spent st1 st2 a b c d -> spent st2 st3 a' b' c' d' ->
  spent st1 st3 (a + a') (b + b') (c + c') (d + d').
Proof.
  intros (H1 & H2 & H3 & H4 & H5 & H6) (K1 & K2 & K3 & K4 & K5 & K6).
  unfold spent. repeat split; try lia.
  intro Hz. rewrite K6, H6; [reflexivity | lia | lia].
Qed.

Lemma spent_eq {C : Type} (st st' : State C) (a b c d a' b' c' d' : nat) :
  spent st st' a b c d -> a = a' -> b = b' -> c = c' -> d = d' ->
  spent st st' a' b' c' d'.
Proof. intros H -> -> -> ->. exact H. Qed.

Lemma Wait_spent {C : Type} (w : World) (fuel : nat) (st st' : State C)
    (res : option error) :
  Wait w fuel st = Some (res, st') ->
  spent st st' 0 (match res with None => 1 | Some _ => 0 end) 0 0.
Proof.
  intro Hrun.
  destruct (Wait_run w fuel st st' res Hrun)
    as (_ & Htp & Hc & _ & _ & _ & _ & (evs & Ht & Hf & Hn) & _).
  destruct (limiter_events_counts evs Hf) as [Hr Hs].
  pose proof (limiter_events_no_cache evs Hf) as Hcc.
  unfold spent. rewrite Ht, roundTrips_app, tokensTaken_app, backoffSleeps_app,
    cacheCalls_app, Hr, Hs, Hcc, Hn, Htp.
  repeat split; try lia. intros _. exact Hc.
Qed.

Section RunAccounts.

Context {C : Type} {cacheOps : Cache C}.
Variable L : Libs.
Variable w : World.
Variable fuel : nat.
Variable c : Client.

Local Open Scope go_scope.

Lemma backoff_phase_spent (attempt : Z) (st st1 : State C) (res : option error) :
  (if (0 <? attempt)%Z
   then waitTime <- backoffDelay w c (attempt - 1) ;; sleep w waitTime
   else ret None) st = Some (res, st1) ->
  spent st st1 0 0 (if (0 <? attempt)%Z then 1 else 0) 0 /\
  (res <> None -> (0 <? attempt)%Z = true /\ exists n, ctxDone w n = res).
Proof.
  destruct (0 <? attempt)%Z.
  - unfold backoffDelay. destruct (Qlt_bool 0 (Jitter (retryConfig c)));
      unfold bind, randomFloat, sleep, bind, selectCtx, emit, ret;
      cbn [selectPos clockPos randPos tripPos limiter cache trace];
      intro H; inversion H; subst; clear H;
      (split; [unfold spent; cbn; repeat split; lia |]);
      intros _; (split; [reflexivity | eauto]).
  - unfold ret. intro H. inversion H; subst.
    split; [apply spent_refl | congruence].
Qed.

Lemma prepareRequest_error (method path : gostring) (params : option Values)
    (body : option searchRequestBody) (e : error) :
  prepareRequest L c method path params body = inl e ->
  exists format inner, e = wrapError format inner.
Proof.
  unfold prepareRequest.
  destruct body as [b |]; [destruct (marshalRequestBody L b) |];
    try (intro H; inversion H; eauto; fail);
    match goal with
    | |- context [newRequest L ?m ?u] => destruct (newRequest L m u)
    end; intro H; inversion H; eauto.
Qed.

Lemma executeRequest_spent (method path : gostring) (params : option Values)
    (body : option searchRequestBody) (st st' : State C)
    (r : option bytes * Z * option error) :
  executeRequest L w c method path params body st = Some (r, st') ->
  exists trips,
    spent st st' trips 0 0 0 /\ (trips <= 1)%nat /\
    (snd r = None -> trips = 1%nat /\ exists b, fst (fst r) = Some b) /\
    (forall err, snd r = Some err ->
       fst (fst r) = None /\
       (shouldRetry (Some err) (snd (fst r)) = true -> trips = 1%nat)).
Proof.
  unfold executeRequest.
  destruct (prepareRequest L c method path params body) as [e | reqURL] eqn:Hp.
  - destruct (prepareRequest_error _ _ _ _ _ Hp) as (format & inner & ->).
    unfold ret. intro H. inversion H; subst. exists 0%nat.
    split; [apply spent_refl |]. split; [lia |]. cbn. split; [discriminate |].
    intros err Herr. inversion Herr; subst. split; [reflexivity | discriminate].
  - unfold bind, httpDo, ret. intro H. inversion H; subst; clear H.
    exists 1%nat. split; [unfold spent; cbn; repeat split; lia |].
    split; [lia |].
    destruct (roundTrip w (tripPos st)) as [e | status [e | b]]; cbn.
    + split; [discriminate | intros; now split].
    + split; [discriminate | intros; now split].
    + destruct (negb (status =? 200)%Z); cbn.
      * split; [discriminate | intros; now split].
      * split; [eauto | discriminate].
Qed.

Lemma cacheSetM_spent (key : gostring) (v : bytes) (ttl : Duration)
    (st st' : State C) (u : unit) :
  cacheSetM key v ttl st = Some (u, st') ->
  exists calls, spent st st' 0 0 0 calls /\ (calls <= 1)%nat.
Proof.
  unfold cacheSetM. destruct (cache st) as [c0 |].
  - intro H. inversion H; subst. exists 1%nat.
    split; [unfold spent; cbn; repeat split; try lia; discriminate | lia].
  - intro H. inversion H; subst. exists 0%nat. split; [apply spent_refl | lia].
Qed.

Lemma cacheGetM_spent (key : gostring) (st st' : State C) (r : option bytes) :
  cacheGetM key st = Some (r, st') ->
  exists calls, spent st st' 0 0 0 calls /\ (calls <= 1)%nat.
Proof.
  unfold cacheGetM. destruct (cache st) as [c0 |].
  - cbv zeta. intro H. inversion H; subst. exists 1%nat.
    split; [unfold spent; cbn; repeat split; try lia; discriminate | lia].
  - intro H. inversion H; subst. exists 0%nat. split; [apply spent_refl | lia].
Qed.

(** The accounts of the loop of [doRequest], for any run that returns. *)
Lemma attemptLoop_spent (method path : gostring) (params : option Values)
    (body : option searchRequestBody) (cacheKey : gostring) (remaining : nat) :
  forall (attempt : Z) (lastErr : option error) (st st' : State C)
         (r : option bytes * option error),
  attemptLoop L w fuel c method path params body cacheKey remaining attempt lastErr st
    = Some (r, st') ->
  exists trips taken sleeps calls,
    spent st st' trips taken sleeps calls /\
    (trips <= remaining)%nat /\ (taken <= remaining)%nat /\ (trips <= taken)%nat /\
    (sleeps <= trips + (if (0 <? attempt)%Z then 1 else 0))%nat /\
    (sleeps <= remaining + (if (0 <? attempt)%Z then 1 else 0) - 1)%nat /\
    (calls <= 1)%nat /\ (isEmpty cacheKey = true -> calls = 0%nat) /\
    (fst r = None <-> snd r <> None).
Proof.
  induction remaining as [| remaining IH]; intros attempt lastErr st st' r Hrun.
  - cbn in Hrun. inversion Hrun; subst. exists 0%nat, 0%nat, 0%nat, 0%nat.
    split; [apply spent_refl |]. cbn. repeat split; try lia; try discriminate; auto.
  - cbn [attemptLoop] in Hrun. bind_inv Hrun as slept st1 Hsleep.
    apply backoff_phase_spent in Hsleep as [Hs1 _].
    set (ind := if (0 <? attempt)%Z then 1%nat else 0%nat) in *.
    destruct slept as [err |].
    { inversion Hrun; subst. exists 0%nat, 0%nat, ind, 0%nat.
      split; [exact Hs1 |]. cbn. repeat split; try lia; try discriminate; auto. }
    bind_inv Hrun as werr st2 Hwait. apply Wait_spent in Hwait.
    destruct werr as [err |].
    { inversion Hrun; subst. exists 0%nat, 0%nat, ind, 0%nat.
      split; [apply (spent_eq _ _ _ _ _ _ _ _ _ _
                       (spent_trans _ _ _ _ _ _ _ _ _ _ _ Hs1 Hwait)); lia |].
      cbn. repeat split; try lia; try discriminate; auto. }
    pose proof (spent_trans _ _ _ _ _ _ _ _ _ _ _ Hs1 Hwait) as Hs2.
    bind_inv Hrun as res st3 Hexec.
    apply executeRequest_spent in Hexec as (trips & Hs3 & Hle & Hok & Hko).
    pose proof (spent_trans _ _ _ _ _ _ _ _ _ _ _ Hs2 Hs3) as Hs13.
    destruct (snd res) as [err |] eqn:Hres.
    + destruct (Hko err eq_refl) as [Hnone Hretry].
      destruct (shouldRetry (Some err) (snd (fst res))).
      * specialize (Hretry eq_refl). subst trips.
        apply IH in Hrun
          as (t' & k' & s' & c' & Hs4 & H1 & H2 & H3 & H4 & H4' & H5 & H6 & H7).
        exists (1 + t')%nat, (1 + k')%nat, (ind + s')%nat, c'.
        split.
        { apply (spent_eq _ _ _ _ _ _ _ _ _ _
                   (spent_trans _ _ _ _ _ _ _ _ _ _ _ Hs13 Hs4)); lia. }
        assert (Hind : (s' <= t' + 1)%nat).
        { destruct (0 <? attempt + 1)%Z; lia. }
        assert (Hind' : (s' <= remaining)%nat).
        { destruct (0 <? attempt + 1)%Z; lia. }
        repeat split; try lia; try assumption; apply H7.
      * inversion Hrun; subst.
        exists trips, 1%nat, ind, 0%nat.
        split; [apply (spent_eq _ _ _ _ _ _ _ _ _ _ Hs13); lia |].
        cbn. repeat split; try lia; try discriminate; auto.
    + destruct (Hok eq_refl) as [-> [b Hb]].
      bind_inv Hrun as has st4 Hhas.
      unfold hasCache in Hhas. inversion Hhas; subst; clear Hhas.
      bind_inv Hrun as u st5 Hset. inversion Hrun; subst; clear Hrun.
      assert (Hs5 : exists calls, spent st4 st' 0 0 0 calls /\ (calls <= 1)%nat /\
                                  (isEmpty cacheKey = true -> calls = 0%nat)).
      { destruct (isEmpty cacheKey); cbn [negb andb] in Hset.
        - inversion Hset; subst. exists 0%nat.
          split; [apply spent_refl | split; [lia | reflexivity]].
        - destruct (match cache st4 with Some _ => true | None => false end).
          + apply cacheSetM_spent in Hset as (calls & Hsp & Hc1).
            exists calls. split; [exact Hsp | split; [exact Hc1 | discriminate]].
          + inversion Hset; subst. exists 0%nat.
            split; [apply spent_refl | split; [lia | discriminate]]. }
      destruct Hs5 as (calls & Hs5 & Hc1 & Hc0).
      exists 1%nat, 1%nat, ind, calls.
      split; [apply (spent_eq _ _ _ _ _ _ _ _ _ _
                       (spent_trans _ _ _ _ _ _ _ _ _ _ _ Hs13 Hs5)); lia |].
      rewrite Hb. cbn. repeat split; try lia; try discriminate; auto.
      intro H. exfalso. now apply H.
Qed.

End RunAccounts.

Section RequestAccounts.

Context {C : Type} {cacheOps : Cache C}.
Variable L : Libs.
Variable w : World.
Variable fuel : nat.
Variable c : Client.

Lemma doRequest_spent (method path : gostring) (params : option Values)
    (body : option searchRequestBody) (st st' : State C)
    (r : option bytes * option error) :
  doRequest L w fuel c method path params body st = Some (r, st') ->
  exists trips taken sleeps calls,
    spent st st' trips taken sleeps calls /\
    (trips <= Z.to_nat (MaxRetries (retryConfig c) + 1))%nat /\
    (taken <= Z.to_nat (MaxRetries (retryConfig c) + 1))%nat /\
    (trips <= taken)%nat /\ (sleeps <= trips)%nat /\
    (sleeps <= Z.to_nat (MaxRetries (retryConfig c) + 1) - 1)%nat /\
    (calls <= 2)%nat /\
    (gostring_eqb method MethodGet = false \/ cache st = None -> calls = 0%nat) /\
    (fst r = None <-> snd r <> None).
Proof.
  unfold doRequest. intro Hrun.
  rewrite (bind_run _ _ _ _ _ (hasCache_run st)) in Hrun. cbv beta in Hrun.
  destruct (gostring_eqb method MethodGet &&
            match cache st with Some _ => true | None => false end) eqn:Hcond.
  - apply andb_true_iff in Hcond as [Hget Hhas].
    bind_inv Hrun as cached st1 Hlook.
    apply cacheGetM_spent in Hlook as (calls1 & Hs1 & Hc1).
    destruct cached as [b |].
    + inversion Hrun; subst. exists 0%nat, 0%nat, 0%nat, calls1.
      split; [exact Hs1 |].
      do 6 (split; [lia |]). split.
      * intros [H | H]; [rewrite Hget in H; discriminate |].
        rewrite H in Hhas. discriminate.
      * cbn [fst snd]. split; [discriminate | intro H; exfalso; now apply H].
    + apply attemptLoop_spent in Hrun
        as (t & k & s & calls2 & Hs2 & H1 & H2 & H3 & H4 & H4' & H5 & _ & H7).
      change (if (0 <? 0)%Z then 1%nat else 0%nat) with 0%nat in *.
      exists t, k, s, (calls1 + calls2)%nat.
      split; [apply (spent_eq _ _ _ _ _ _ _ _ _ _
                       (spent_trans _ _ _ _ _ _ _ _ _ _ _ Hs1 Hs2)); lia |].
      do 6 (split; [lia |]). split; [| exact H7].
      intros [H | H]; [rewrite Hget in H; discriminate |].
      rewrite H in Hhas. discriminate.
  - apply attemptLoop_spent in Hrun
      as (t & k & s & calls & Hs & H1 & H2 & H3 & H4 & H4' & H5 & H6 & H7).
    change (if (0 <? 0)%Z then 1%nat else 0%nat) with 0%nat in *.
    specialize (H6 eq_refl). subst calls.
    exists t, k, s, 0%nat. split; [exact Hs |].
    do 6 (split; [lia |]). split; [reflexivity | exact H7].
Qed.

(** X14: the budget of one call: whatever the server, the limiter and the
    context do, a call of [doRequest] that returns has made at most
    [MaxRetries + 1] round trips, each after taking a token, has slept
    between attempts at most [MaxRetries] times and never more often than
    it made round trips, and has called the cache at most twice. *)
Theorem doRequest_budget (method path : gostring) (params : option Values)
    (body : option searchRequestBody) (st st' : State C)
    (r : option bytes * option error) :
  doRequest L w fuel c method path params body st = Some (r, st') ->
  exists trips taken sleeps calls,
    spent st st' trips taken sleeps calls /\
    (trips <= taken)%nat /\
    (taken <= Z.to_nat (MaxRetries (retryConfig c) + 1))%nat /\
    (sleeps <= trips)%nat /\
    (sleeps <= Z.to_nat (MaxRetries (retryConfig c) + 1) - 1)%nat /\
    (calls <= 2)%nat.
Proof.
  intro Hrun.
  destruct (doRequest_spent _ _ _ _ _ _ _ Hrun)
    as (t & k & s & calls & Hs & H1 & H2 & H3 & H4 & H5 & H6 & _).
  exists t, k, s, calls. repeat split; try assumption; apply Hs.
Qed.


(** X16: only a GET with a configured cache touches the cache: for any
    other method, and for a client without a cache, [doRequest] neither
    reads nor writes it, whatever the outcome. *)
Theorem doRequest_other_methods_skip_cache (method path : gostring)
    (params : option Values) (body : option searchRequestBody) (st st' : State C)
    (r : option bytes * option error) :
  gostring_eqb method MethodGet = false \/ cache st = None ->
  doRequest L w fuel c method path params body st = Some (r, st') ->
  cache st' = cache st /\ cacheCalls (trace st') = cacheCalls (trace st).
Proof.
  intros Hm Hrun.
  destruct (doRequest_spent _ _ _ _ _ _ _ Hrun)
    as (t & k & s & calls & Hs & _ & _ & _ & _ & _ & _ & Hz & _).
  specialize (Hz Hm). subst calls.
  destruct Hs as (_ & _ & _ & Hc & _ & Hsame).
  split; [now apply Hsame | lia].
Qed.

End RequestAccounts.

Lemma doRequest_budget_witness :
  exists st' trips taken sleeps calls,
    doRequest plainLibs busyWorld 1 defaultClient MethodGet detailPath None None coldState
      = Some ((None, Some (wrapError "max retries exceeded: %w"
                             (Some (errorfInt "unexpected status code: %d" 503)))), st') /\
    spent coldState st' trips taken sleeps calls /\
    (trips <= taken)%nat /\ (taken <= 4)%nat /\ (sleeps <= trips)%nat /\
    (sleeps <= 3)%nat /\ (calls <= 2)%nat.
Proof.
  assert (Hrun : exists st',
            doRequest plainLibs busyWorld 1 defaultClient MethodGet detailPath None None
              coldState
            = Some ((None, Some (wrapError "max retries exceeded: %w"
                                   (Some (errorfInt "unexpected status code: %d" 503)))),
                    st')).
  { eexists. vm_compute. reflexivity. }
  destruct Hrun as [st' Hrun]. exists st'.
  destruct (doRequest_budget plainLibs busyWorld 1 defaultClient MethodGet detailPath
              None None coldState st' _ Hrun)
    as (t & k & s & calls & H).
  exists t, k, s, calls. split; [exact Hrun | exact H].
Defined.


Lemma doRequest_other_methods_skip_cache_witness :
  exists st',
    doRequest plainLibs servingWorld 1 defaultClient (runes "POST")
      (runes "/search/v2/global") None (Some (mkSearchRequestBody (runes "stm32")))
      coldState = Some ((Some (runes "C8734"), None), st') /\
    cache st' = cache coldState /\ cacheCalls (trace st') = cacheCalls (trace coldState).
Proof.
  assert (Hrun : exists st',
            doRequest plainLibs servingWorld 1 defaultClient (runes "POST")
              (runes "/search/v2/global") None
              (Some (mkSearchRequestBody (runes "stm32"))) coldState
            = Some ((Some (runes "C8734"), None), st')).
  { eexists. vm_compute. reflexivity. }
  destruct Hrun as [st' Hrun]. exists st'. split; [exact Hrun |].
  exact (doRequest_other_methods_skip_cache plainLibs servingWorld 1 defaultClient
           (runes "POST") (runes "/search/v2/global") None
           (Some (mkSearchRequestBody (runes "stm32"))) coldState st'
           (Some (runes "C8734"), None) (or_introl eq_refl) Hrun).
Defined.

(** ** Runs of [doRequest] that settle before the attempts run out *)

Lemma sleepsDue_later (n : nat) : forall attempt : Z,
  (0 < attempt)%Z -> sleepsDue n attempt = n.
Proof.
  induction n as [| n IH]; intros attempt Hpos; [reflexivity |].
  cbn [sleepsDue]. rewrite IH by lia.
  destruct (0 <? attempt)%Z eqn:E; [reflexivity |].
  apply Z.ltb_ge in E. lia.
Qed.

Lemma sleepsDue_first (k : nat) : sleepsDue (S k) 0 = k.
Proof. cbn [sleepsDue]. change (0 <? 0)%Z with false. now rewrite sleepsDue_later. Qed.

Section Settling.

Context {C : Type} {cacheOps : Cache C}.
Variable L : Libs.
Variable w : World.
Variable c : Client.

Local Open Scope go_scope.

(** After [k] attempts that fail retryably, an attempt that is not to be
    retried ends the loop with its [verdict]. *)
Lemma attemptLoop_settles (method path : gostring) (params : option Values)
    (body : option searchRequestBody) (cacheKey reqURL : gostring) :
  steadyWorld w ->
  prepareRequest L c method path params body = inr reqURL ->
  forall (k remaining : nat) (attempt : Z) (lastErr : option error) (st : State C),
  (k < remaining)%nat ->
  canGrant w st ->
  (forall i, (i < k)%nat ->
     retryableFailure (readResponse (roundTrip w (tripPos st + i)))) ->
  (snd (readResponse (roundTrip w (tripPos st + k))) = None \/
   shouldRetry (snd (readResponse (roundTrip w (tripPos st + k))))
     (snd (fst (readResponse (roundTrip w (tripPos st + k))))) = false) ->
  exists (fuel0 : nat) (st' : State C),
    (forall fuel, (fuel0 <= fuel)%nat ->
       attemptLoop L w fuel c method path params body cacheKey remaining attempt lastErr st
       = Some (verdict (readResponse (roundTrip w (tripPos st + k))), st')) /\
    tripPos st' = (tripPos st + S k)%nat /\
    cache st' = cacheAfter cacheKey (readResponse (roundTrip w (tripPos st + k))) (cache st) /\
    exists evs, trace st' = evs ++ trace st /\
      roundTrips evs = S k /\
      backoffSleeps evs = sleepsDue (S k) attempt.
Proof.
  intros Hworld Hprep.
  pose proof Hworld as (Hctx & Hmono & Hfar).
  induction k as [| k IH]; intros remaining attempt lastErr st Hlt Hgrant Hfail Hstop;
    (destruct remaining as [| remaining]; [lia |]);
    destruct (backoff_phase w c attempt st Hctx)
      as (st1 & Hsleep & Hl1 & Hcp1 & Htp1 & Hc1 & evs1 & Ht1 & Hr1 & Hs1);
    assert (Hgrant1 : canGrant w st1)
      by (unfold canGrant in *; now rewrite Hl1, Hcp1);
    destruct (Wait_grants w st1 Hworld Hgrant1)
      as (fuelW & st2 & Hwait & Hgrant2 & _ & Htp2 & Hc2 & evs2 & Ht2 & Hlim2);
    destruct (limiter_events_counts evs2 Hlim2) as [Hr2 Hs2];
    set (st3 := mkState (clockPos st2) (selectPos st2) (randPos st2) (S (tripPos st2))
                  (limiter st2) (cache st2) (EvRoundTrip method reqURL :: trace st2));
    assert (Hexec : executeRequest L w c method path params body st2
                    = Some (readResponse (roundTrip w (tripPos st2)), st3))
      by (unfold executeRequest; rewrite Hprep; reflexivity);
    assert (Hpos : tripPos st2 = tripPos st) by congruence.
  - rewrite Nat.add_0_r in *. rewrite Hpos in Hexec.
    set (r := readResponse (roundTrip w (tripPos st))) in *.
    destruct (snd r) as [err |] eqn:Herr.
    + destruct Hstop as [Hnone | Hno]; [discriminate |].
      exists fuelW, st3. split; [| repeat split].
      * intros fuel Hfuel. cbn [attemptLoop].
        rewrite (bind_run _ _ _ _ _ Hsleep).
        rewrite (bind_run _ _ _ _ _ (Hwait fuel Hfuel)).
        rewrite (bind_run _ _ _ _ _ Hexec).
        rewrite Herr, Hno. unfold verdict. now rewrite Herr.
      * cbn [tripPos st3]. lia.
      * unfold cacheAfter. rewrite Herr. cbn [cache st3]. congruence.
      * exists ([EvRoundTrip method reqURL] ++ evs2 ++ evs1). repeat split.
        -- cbn [trace st3]. rewrite Ht2, Ht1. now rewrite <- !app_assoc.
        -- rewrite !roundTrips_app, Hr2, Hr1. reflexivity.
        -- rewrite !backoffSleeps_app, Hs2, Hs1. cbn. lia.
    + assert (Hrun3 : forall fuel, (fuelW <= fuel)%nat ->
                attemptLoop L w fuel c method path params body cacheKey (S remaining)
                  attempt lastErr st
                = (has <- hasCache ;;
                   (if negb (isEmpty cacheKey) && has
                    then cacheSetM cacheKey (unwrapBytes (fst (fst r))) (5 * Minute)%Z
                    else ret tt) ;;;
                   ret (fst (fst r), None)) st3).
      { intros fuel Hfuel. cbn [attemptLoop].
        rewrite (bind_run _ _ _ _ _ Hsleep).
        rewrite (bind_run _ _ _ _ _ (Hwait fuel Hfuel)).
        rewrite (bind_run _ _ _ _ _ Hexec).
        now rewrite Herr. }
      assert (Hc3 : cache st3 = cache st) by (cbn [cache st3]; congruence).
      assert (Ht3 : trace st3 = ([EvRoundTrip method reqURL] ++ evs2 ++ evs1) ++ trace st).
      { cbn [trace st3]. rewrite Ht2, Ht1. now rewrite <- !app_assoc. }
      assert (Hcount : roundTrips ([EvRoundTrip method reqURL] ++ evs2 ++ evs1) = 1%nat /\
                       backoffSleeps ([EvRoundTrip method reqURL] ++ evs2 ++ evs1)
                       = sleepsDue 1 attempt).
      { rewrite !roundTrips_app, !backoffSleeps_app, Hr2, Hr1, Hs2, Hs1. cbn. split; lia. }
      destruct Hcount as [Hrt Hbs].
      unfold verdict, cacheAfter. rewrite Herr.
      destruct (cache st) as [c0 |] eqn:Hcache.
      * destruct (isEmpty cacheKey) eqn:Hkey.
        -- exists fuelW, st3. split; [| repeat split].
           ++ intros fuel Hfuel. rewrite (Hrun3 fuel Hfuel).
              rewrite (bind_run _ _ _ _ _ (hasCache_run st3)). cbv beta.
              cbn [negb andb]. reflexivity.
           ++ cbn [tripPos st3]. lia.
           ++ exact Hc3.
           ++ eexists. split; [exact Ht3 | split; assumption].
        -- eexists fuelW, _. split; [| repeat split].
           ++ intros fuel Hfuel. rewrite (Hrun3 fuel Hfuel).
              rewrite (bind_run _ _ _ _ _ (hasCache_run st3)). cbv beta.
              rewrite Hc3. cbn [negb andb].
              unfold bind, cacheSetM, ret. rewrite Hc3. reflexivity.
           ++ cbn [tripPos st3]. lia.
           ++ reflexivity.
           ++ exists ([EvCacheSet cacheKey (unwrapBytes (fst (fst r))) (5 * Minute)%Z]
                       ++ [EvRoundTrip method reqURL] ++ evs2 ++ evs1).
              cbn [trace]. rewrite Ht3. repeat split.
              ** rewrite roundTrips_app, Hrt. reflexivity.
              ** rewrite backoffSleeps_app, Hbs. reflexivity.
      * exists fuelW, st3. split; [| repeat split].
        -- intros fuel Hfuel. rewrite (Hrun3 fuel Hfuel).
           rewrite (bind_run _ _ _ _ _ (hasCache_run st3)). cbv beta.
           rewrite Hc3, andb_false_r. reflexivity.
        -- cbn [tripPos st3]. lia.
        -- exact Hc3.
        -- eexists. split; [exact Ht3 | split; assumption].
  - assert (Hfirst : retryableFailure (readResponse (roundTrip w (tripPos st2)))).
    { rewrite Hpos. rewrite <- (Nat.add_0_r (tripPos st)). apply Hfail. lia. }
    destruct Hfirst as [Hne Hretry].
    destruct (snd (readResponse (roundTrip w (tripPos st2)))) as [err |] eqn:Herr;
      [clear Hne | congruence].
    assert (Hshift : forall i, (tripPos st3 + i = tripPos st + S i)%nat)
      by (intro i; cbn [tripPos st3]; lia).
    destruct (IH remaining (attempt + 1)%Z (Some err) st3 ltac:(lia) Hgrant2)
      as (fuelR & st' & Hrest & Htp' & Hc' & evs4 & Ht4 & Hr4 & Hs4).
    { intros i Hi. rewrite Hshift. apply Hfail. lia. }
    { now rewrite Hshift. }
    rewrite Hshift in *.
    exists (Nat.max fuelW fuelR), st'. split; [| repeat split].
    + intros fuel Hfuel. cbn [attemptLoop].
      rewrite (bind_run _ _ _ _ _ Hsleep).
      rewrite (bind_run _ _ _ _ _ (Hwait fuel ltac:(lia))).
      rewrite (bind_run _ _ _ _ _ Hexec).
      rewrite Herr, Hretry.
      exact (Hrest fuel ltac:(lia)).
    + lia.
    + rewrite Hc'. cbn [cache st3]. congruence.
    + exists (evs4 ++ [EvRoundTrip method reqURL] ++ evs2 ++ evs1). repeat split.
      * rewrite Ht4. cbn [trace st3]. rewrite Ht2, Ht1.
        rewrite <- !app_assoc. reflexivity.
      * rewrite !roundTrips_app, Hr4, Hr2, Hr1. cbn. lia.
      * rewrite !backoffSleeps_app, Hs4, Hs2, Hs1.
        change (sleepsDue (S (S k)) attempt)
          with ((if (0 <? attempt)%Z then 1%nat else 0%nat)
                + sleepsDue (S k) (attempt + 1))%nat.
        cbn. lia.
Qed.

End Settling.

(** The general form for [doRequest]: [k] retryable failures, [k] at most
    [MaxRetries], then an attempt that is not to be retried. *)
Lemma doRequest_settles {C : Type} {cacheOps : Cache C} (L : Libs) (w : World)
    (c : Client) (method path : gostring) (params : option Values)
    (body : option searchRequestBody) (reqURL : gostring) (st : State C) (k : nat) :
  steadyWorld w -> canGrant w st ->
  (forall c0, cache st = Some c0 ->
     fst (cacheGet c0 (buildCacheKey L c method path params)) = None) ->
  prepareRequest L c method path params body = inr reqURL ->
  (Z.of_nat k <= MaxRetries (retryConfig c))%Z ->
  (forall i, (i < k)%nat ->
     retryableFailure (readResponse (roundTrip w (tripPos st + i)))) ->
  (snd (readResponse (roundTrip w (tripPos st + k))) = None \/
   shouldRetry (snd (readResponse (roundTrip w (tripPos st + k))))
     (snd (fst (readResponse (roundTrip w (tripPos st + k))))) = false) ->
  exists (fuel0 : nat) (st' : State C),
    (forall fuel, (fuel0 <= fuel)%nat ->
       doRequest L w fuel c method path params body st
       = Some (verdict (readResponse (roundTrip w (tripPos st + k))), st')) /\
    tripPos st' = (tripPos st + S k)%nat /\
    (exists evs, trace st' = evs ++ trace st /\
       roundTrips evs = S k /\ backoffSleeps evs = k) /\
    cache st' =
      match cache st with
      | Some c0 =>
          if gostring_eqb method MethodGet
          then cacheAfter (buildCacheKey L c method path params)
                 (readResponse (roundTrip w (tripPos st + k)))
                 (Some (snd (cacheGet c0 (buildCacheKey L c method path params))))
          else Some c0
      | None => None
      end.
Proof.
  intros Hworld Hgrant Hmiss Hprep Hk Hfail Hstop.
  set (n := Z.to_nat (MaxRetries (retryConfig c) + 1)).
  assert (Hlt : (k < n)%nat) by (unfold n; lia).
  unfold doRequest.
  destruct (gostring_eqb method MethodGet &&
            match cache st with Some _ => true | None => false end) eqn:Hcond.
  - apply andb_true_iff in Hcond as [Hget Hhas].
    destruct (cache st) as [c0 |] eqn:Hc; [| discriminate].
    set (key := buildCacheKey L c method path params) in *.
    set (st0 := mkState (clockPos st) (selectPos st) (randPos st) (tripPos st)
                  (limiter st) (Some (snd (cacheGet c0 key)))
                  (EvCacheGet key false :: trace st)).
    assert (Hlookup : cacheGetM key st = Some (None, st0)).
    { unfold cacheGetM. rewrite Hc. cbv zeta. now rewrite (Hmiss c0 eq_refl). }
    destruct (attemptLoop_settles L w c method path params body key reqURL
                Hworld Hprep k n 0%Z None st0 Hlt Hgrant Hfail Hstop)
      as (fuel0 & st' & Hrun & Htp & Hca & evs & Ht & Hr & Hs).
    exists fuel0, st'. split; [| split; [| split]].
    + intros fuel Hfuel. rewrite (bind_run _ _ _ _ _ (hasCache_run st)); cbv beta.
      rewrite Hc, Hget. cbn [andb]. rewrite (bind_run _ _ _ _ _ Hlookup).
      fold n. exact (Hrun fuel Hfuel).
    + exact Htp.
    + exists (evs ++ [EvCacheGet key false]). repeat split.
      * rewrite Ht. cbn [trace st0]. now rewrite <- app_assoc.
      * rewrite roundTrips_app, Hr. cbn. lia.
      * rewrite backoffSleeps_app, Hs, sleepsDue_first. cbn. lia.
    + rewrite Hget. exact Hca.
  - destruct (attemptLoop_settles L w c method path params body [] reqURL
                Hworld Hprep k n 0%Z None st Hlt Hgrant Hfail Hstop)
      as (fuel0 & st' & Hrun & Htp & Hca & evs & Ht & Hr & Hs).
    exists fuel0, st'. split; [| split; [exact Htp | split]].
    + intros fuel Hfuel. rewrite (bind_run _ _ _ _ _ (hasCache_run st)); cbv beta.
      rewrite Hcond. fold n. exact (Hrun fuel Hfuel).
    + exists evs. rewrite sleepsDue_first in Hs. auto.
    + rewrite Hca. unfold cacheAfter.
      destruct (cache st) as [c0 |]; [| now destruct (snd _)].
      cbn [andb] in Hcond. rewrite andb_true_r in Hcond. rewrite Hcond.
      now destruct (snd _).
Qed.

(** X17: transient failures are absorbed: when the first [k] attempts fail
    retryably, [k] at most [MaxRetries], and the next one is answered with
    200, [doRequest] returns that body and no error, after exactly [k + 1]
    round trips and [k] backoff sleeps.  The world is steady, the limiter
    can grant, the request can be built and the cache does not hit. *)
Theorem doRequest_succeeds_after_retries {C : Type} {cacheOps : Cache C} (L : Libs)
    (w : World) (c : Client) (method path : gostring) (params : option Values)
    (body : option searchRequestBody) (reqURL : gostring) (st : State C)
    (k : nat) (b : bytes) :
  steadyWorld w -> canGrant w st ->
  (forall c0, cache st = Some c0 ->
     fst (cacheGet c0 (buildCacheKey L c method path params)) = None) ->
  prepareRequest L c method path params body = inr reqURL ->
  (Z.of_nat k <= MaxRetries (retryConfig c))%Z ->
  (forall i, (i < k)%nat ->
     retryableFailure (readResponse (roundTrip w (tripPos st + i)))) ->
  roundTrip w (tripPos st + k) = Response 200 (inr b) ->
  exists (fuel0 : nat) (st' : State C),
    (forall fuel, (fuel0 <= fuel)%nat ->
       doRequest L w fuel c method path params body st = Some ((Some b, None), st')) /\
    tripPos st' = (tripPos st + S k)%nat /\
    exists evs, trace st' = evs ++ trace st /\
      roundTrips evs = S k /\ backoffSleeps evs = k.
Proof.
  intros Hworld Hgrant Hmiss Hprep Hk Hfail Hok.
  destruct (doRequest_settles L w c method path params body reqURL st k
              Hworld Hgrant Hmiss Hprep Hk Hfail)
    as (fuel0 & st' & Hrun & Htp & Hev & _).
  { rewrite Hok. left. reflexivity. }
  rewrite Hok in Hrun. exists fuel0, st'. split; [exact Hrun | split; assumption].
Qed.

(** X18: an error that is not retryable is returned at once: when the
    first attempt ends in an error for which [shouldRetry] is false,
    [doRequest] returns that error after exactly one round trip and
    without sleeping, whatever [MaxRetries] allows. *)
Theorem doRequest_fatal_error_not_retried {C : Type} {cacheOps : Cache C} (L : Libs)
    (w : World) (c : Client) (method path : gostring) (params : option Values)
    (body : option searchRequestBody) (reqURL : gostring) (st : State C)
    (res : option bytes) (status : Z) (err : error) :
  steadyWorld w -> canGrant w st ->
  (forall c0, cache st = Some c0 ->
     fst (cacheGet c0 (buildCacheKey L c method path params)) = None) ->
  prepareRequest L c method path params body = inr reqURL ->
  (0 <= MaxRetries (retryConfig c))%Z ->
  readResponse (roundTrip w (tripPos st)) = (res, status, Some err) ->
  shouldRetry (Some err) status = false ->
  exists (fuel0 : nat) (st' : State C),
    (forall fuel, (fuel0 <= fuel)%nat ->
       doRequest L w fuel c method path params body st = Some ((None, Some err), st')) /\
    tripPos st' = S (tripPos st) /\
    exists evs, trace st' = evs ++ trace st /\
      roundTrips evs = 1%nat /\ backoffSleeps evs = 0%nat.
Proof.
  intros Hworld Hgrant Hmiss Hprep Hk Hread Hno.
  destruct (doRequest_settles L w c method path params body reqURL st 0
              Hworld Hgrant Hmiss Hprep) as (fuel0 & st' & Hrun & Htp & Hrest & _).
  { exact Hk. }
  { intros i Hi. lia. }
  { rewrite Nat.add_0_r, Hread. right. exact Hno. }
  rewrite Nat.add_0_r, Hread in Hrun. rewrite Nat.add_1_r in Htp.
  exists fuel0, st'. split; [exact Hrun | split; [exact Htp | exact Hrest]].
Qed.

Lemma steady_clock (w : World) :
  (forall n, ctxDone w n = None) ->
  (forall n, clock w n = (Z.of_nat n * Millisecond)%Z) ->
  steadyWorld w.
Proof.
  intros Hctx Hclock. split; [exact Hctx | split].
  - intro n. rewrite !Hclock. unfold Millisecond. lia.
  - intro t. exists (Z.to_nat t). rewrite Hclock. unfold Millisecond. lia.
Qed.

Lemma doRequest_succeeds_after_retries_witness :
  exists (fuel0 : nat) (st' : State TableCache),
    (forall fuel, (fuel0 <= fuel)%nat ->
       doRequest plainLibs flakyWorld fuel defaultClient MethodGet detailPath None None
         coldState = Some ((Some (runes "C8734"), None), st')) /\
    tripPos st' = (tripPos coldState + 3)%nat /\
    exists evs, trace st' = evs ++ trace coldState /\
      roundTrips evs = 3%nat /\ backoffSleeps evs = 2%nat.
Proof.
  apply (doRequest_succeeds_after_retries plainLibs flakyWorld defaultClient MethodGet
           detailPath None None detailURL coldState 2 (runes "C8734")).
  - apply steady_clock; reflexivity.
  - repeat split; vm_compute; discriminate.
  - intros c0 Hc0. inversion Hc0; subst. reflexivity.
  - reflexivity.
  - vm_compute. discriminate.
  - intros i Hi. destruct i as [| [| i]]; [| | lia];
      (split; [discriminate | reflexivity]).
  - reflexivity.
Defined.

Lemma doRequest_fatal_error_not_retried_witness :
  exists (fuel0 : nat) (st' : State TableCache),
    (forall fuel, (fuel0 <= fuel)%nat ->
       doRequest plainLibs missingWorld fuel defaultClient MethodGet detailPath None None
         coldState
       = Some ((None, Some (errorfInt "unexpected status code: %d" 404)), st')) /\
    tripPos st' = S (tripPos coldState) /\
    exists evs, trace st' = evs ++ trace coldState /\
      roundTrips evs = 1%nat /\ backoffSleeps evs = 0%nat.
Proof.
  apply (doRequest_fatal_error_not_retried plainLibs missingWorld defaultClient MethodGet
           detailPath None None detailURL coldState None 404
           (errorfInt "unexpected status code: %d" 404)).
  - apply steady_clock; reflexivity.
  - repeat split; vm_compute; discriminate.
  - intros c0 Hc0. inversion Hc0; subst. reflexivity.
  - reflexivity.
  - vm_compute. discriminate.
  - reflexivity.
  - reflexivity.
Defined.

(** ** What a failed request leaves in the cache *)

Lemma quiet_refl {C : Type} (st : State C) : quiet st st.
Proof. now exists []. Qed.

Lemma quiet_trans {C : Type} (st1 st2 st3 : State C) :
  quiet st1 st2 -> quiet st2 st3 -> quiet st1 st3.
Proof.
  intros (e1 & H1 & Q1) (e2 & H2 & Q2). exists (e2 ++ e1). split.
  - now rewrite H2, H1, app_assoc.
  - now rewrite storedTTLs_app, Q1, Q2.
Qed.

Lemma Wait_quiet {C : Type} (w : World) (fuel : nat) (st st' : State C)
    (res : option error) :
  Wait w fuel st = Some (res, st') -> quiet st st'.
Proof.
  intro Hrun.
  destruct (Wait_run w fuel st st' res Hrun)
    as (_ & _ & _ & _ & _ & _ & _ & (evs & Ht & Hf & _) & _).
  exists evs. split; [exact Ht | now apply storedTTLs_limiter].
Qed.

Section Quiet.

Context {C : Type} {cacheOps : Cache C}.
Variable L : Libs.
Variable w : World.
Variable fuel : nat.
Variable c : Client.

Local Open Scope go_scope.

Lemma backoff_phase_quiet (attempt : Z) (st st1 : State C) (res : option error) :
  (if (0 <? attempt)%Z
   then waitTime <- backoffDelay w c (attempt - 1) ;; sleep w waitTime
   else ret None) st = Some (res, st1) ->
  quiet st st1.
Proof.
  destruct (0 <? attempt)%Z.
  - unfold backoffDelay. destruct (Qlt_bool 0 (Jitter (retryConfig c)));
      unfold bind, randomFloat, sleep, bind, selectCtx, emit, ret;
      cbn [selectPos clockPos randPos tripPos limiter cache trace];
      intro H; inversion H; subst; clear H;
      eexists [_]; split; reflexivity.
  - intro H. inversion H; subst. apply quiet_refl.
Qed.

Lemma executeRequest_quiet (method path : gostring) (params : option Values)
    (body : option searchRequestBody) (st st' : State C)
    (r : option bytes * Z * option error) :
  executeRequest L w c method path params body st = Some (r, st') -> quiet st st'.
Proof.
  unfold executeRequest.
  destruct (prepareRequest L c method path params body) as [e | reqURL].
  - intro H. inversion H; subst. apply quiet_refl.
  - unfold bind, httpDo, ret. intro H. inversion H; subst; clear H.
    eexists [_]. split; reflexivity.
Qed.

Lemma cacheGetM_quiet (key : gostring) (st st' : State C) (r : option bytes) :
  cacheGetM key st = Some (r, st') -> quiet st st'.
Proof.
  unfold cacheGetM. destruct (cache st) as [c0 |].
  - cbv zeta. intro H. inversion H; subst. eexists [_]. split; reflexivity.
  - intro H. inversion H; subst. apply quiet_refl.
Qed.

(** The loop calls [Cache.Set] only for an attempt that succeeded, and only
    with a key. *)
Lemma attemptLoop_quiet (method path : gostring) (params : option Values)
    (body : option searchRequestBody) (cacheKey : gostring) (remaining : nat) :
  forall attempt lastErr (st st' : State C) r,
  attemptLoop L w fuel c method path params body cacheKey remaining attempt lastErr st
    = Some (r, st') ->
  snd r <> None \/ isEmpty cacheKey = true ->
  quiet st st'.
Proof.
  induction remaining as [| remaining IH]; intros attempt lastErr st st' r Hrun Hcase.
  - inversion Hrun; subst. apply quiet_refl.
  - cbn [attemptLoop] in Hrun.
    bind_inv Hrun as slept st1 Hsleep.
    apply backoff_phase_quiet in Hsleep.
    destruct slept as [err |].
    { inversion Hrun; subst. exact Hsleep. }
    bind_inv Hrun as werr st2 Hwait.
    apply Wait_quiet in Hwait.
    pose proof (quiet_trans _ _ _ Hsleep Hwait) as H2.
    destruct werr as [err |].
    { inversion Hrun; subst. exact H2. }
    bind_inv Hrun as res st3 Hexec.
    apply executeRequest_quiet in Hexec.
    pose proof (quiet_trans _ _ _ H2 Hexec) as H3.
    destruct (snd res) as [err |] eqn:Herr.
    + destruct (shouldRetry (Some err) (snd (fst res))).
      * apply (quiet_trans _ _ _ H3). now apply (IH _ _ _ _ _ Hrun).
      * inversion Hrun; subst. exact H3.
    + rewrite (bind_run _ _ _ _ _ (hasCache_run st3)) in Hrun. cbv beta in Hrun.
      destruct Hcase as [Hne | Hkey].
      * destruct (negb (isEmpty cacheKey) &&
                  match cache st3 with Some _ => true | None => false end);
          bind_inv Hrun as u st4 Hset; inversion Hrun; subst; exfalso; now apply Hne.
      * rewrite Hkey in Hrun. cbn [negb andb] in Hrun.
        inversion Hrun; subst. exact H3.
Qed.

(** The same for [doRequest]. *)
Lemma doRequest_quiet (method path : gostring) (params : option Values)
    (body : option searchRequestBody) (st st' : State C)
    (r : option bytes * option error) :
  doRequest L w fuel c method path params body st = Some (r, st') ->
  snd r <> None \/ gostring_eqb method MethodGet = false ->
  quiet st st'.
Proof.
  unfold doRequest. intros Hrun Hcase.
  rewrite (bind_run _ _ _ _ _ (hasCache_run st)) in Hrun. cbv beta in Hrun.
  destruct (gostring_eqb method MethodGet) eqn:Hget.
  - destruct Hcase as [Hne | Hm]; [| discriminate].
    destruct (match cache st with Some _ => true | None => false end);
      cbn [andb] in Hrun.
    + bind_inv Hrun as cached st1 Hlook.
      apply cacheGetM_quiet in Hlook.
      destruct cached as [b |].
      * inversion Hrun; subst. exfalso. now apply Hne.
      * apply (quiet_trans _ _ _ Hlook).
        apply (attemptLoop_quiet _ _ _ _ _ _ _ _ _ _ _ Hrun). now left.
    + apply (attemptLoop_quiet _ _ _ _ _ _ _ _ _ _ _ Hrun). now left.
  - cbn [andb] in Hrun.
    apply (attemptLoop_quiet _ _ _ _ _ _ _ _ _ _ _ Hrun). now right.
Qed.

(** X19: a request that fails writes nothing to the cache: on every run of
    [doRequest] that returns an error, [Cache.Set] was not called. *)
Theorem doRequest_error_stores_nothing (method path : gostring)
    (params : option Values) (body : option searchRequestBody) (st st' : State C)
    (res : option bytes) (err : error) :
  doRequest L w fuel c method path params body st = Some ((res, Some err), st') ->
  exists evs, trace st' = evs ++ trace st /\ storedTTLs evs = [].
Proof.
  intro Hrun. apply (doRequest_quiet _ _ _ _ _ _ _ Hrun). left. discriminate.
Qed.

End Quiet.

Lemma doRequest_error_stores_nothing_witness :
  exists st' evs,
    doRequest plainLibs missingWorld 1 defaultClient MethodGet detailPath None None
      coldState
      = Some ((None, Some (errorfInt "unexpected status code: %d" 404)), st') /\
    trace st' = evs ++ trace coldState /\ storedTTLs evs = [].
Proof.
  assert (Hrun : exists st',
            doRequest plainLibs missingWorld 1 defaultClient MethodGet detailPath None
              None coldState
            = Some ((None, Some (errorfInt "unexpected status code: %d" 404)), st')).
  { eexists. vm_compute. reflexivity. }
  destruct Hrun as [st' Hrun]. exists st'.
  destruct (doRequest_error_stores_nothing plainLibs missingWorld 1 defaultClient
              MethodGet detailPath None None coldState st' None _ Hrun)
    as (evs & Ht & Hq).
  exists evs. split; [exact Hrun | split; [exact Ht | exact Hq]].
Defined.

(** ** A limiter below one request per second, seen from [doRequest] *)

Lemma Wait_starved_fails {C : Type} (w : World) (fuel : nat) :
  forall (st st' : State C) (res : option error),
  maxTokens (limiter st) < 1 ->
  Wait w fuel st = Some (res, st') -> res <> None.
Proof.
  induction fuel as [| fuel IH]; intros st st' res Hmax Hrun; [discriminate |].
  rewrite Wait_unfold in Hrun. cbv zeta in Hrun.
  destruct (refill_fields (clock w (clockPos st)) (limiter st)) as (Em & _ & _).
  assert (Hlow : tokens (refill (clock w (clockPos st)) (limiter st)) < 1).
  { destruct (refill_tokens_cases (clock w (clockPos st)) (limiter st))
      as [[Hc ->] | [Hc ->]]; cbv zeta in Hc; lra. }
  destruct (Qle_bool 1 (tokens (refill (clock w (clockPos st)) (limiter st)))) eqn:E.
  - apply Qle_bool_iff in E. lra.
  - destruct (ctxDone w (selectPos st)) as [e |].
    + inversion Hrun; subst. discriminate.
    + apply IH in Hrun; [exact Hrun |]. cbn [limiter]. now rewrite Em.
Qed.

Section Starved.

Context {C : Type} {cacheOps : Cache C}.
Variable L : Libs.
Variable w : World.
Variable fuel : nat.
Variable c : Client.

Local Open Scope go_scope.

Lemma attemptLoop_starved (method path : gostring) (params : option Values)
    (body : option searchRequestBody) (cacheKey : gostring) (remaining : nat)
    (lastErr : option error) (st st' : State C) (r : option bytes * option error) :
  maxTokens (limiter st) < 1 ->
  attemptLoop L w fuel c method path params body cacheKey remaining 0 lastErr st
    = Some (r, st') ->
  snd r <> None /\ tripPos st' = tripPos st /\
  exists evs, trace st' = evs ++ trace st /\ roundTrips evs = 0%nat.
Proof.
  intros Hmax Hrun. destruct remaining as [| remaining].
  - inversion Hrun; subst. cbn. split; [discriminate |]. split; [reflexivity |].
    now exists [].
  - cbn [attemptLoop] in Hrun. change (0 <? 0)%Z with false in Hrun.
    unfold bind at 1 in Hrun. unfold ret at 1 in Hrun.
    bind_inv Hrun as werr st2 Hwait.
    pose proof (Wait_starved_fails w fuel st st2 werr Hmax Hwait) as Hne.
    destruct (Wait_run w fuel st st2 werr Hwait)
      as (_ & Htp & _ & _ & _ & _ & _ & (evs & Ht & Hf & _) & _).
    destruct werr as [err |]; [| congruence].
    inversion Hrun; subst. cbn. split; [discriminate |]. split; [exact Htp |].
    exists evs. split; [exact Ht | now apply limiter_events_counts].
Qed.

(** X20: a client whose limiter cannot hold a whole token (one built for
    less than one request per second) never reaches the server: a call of
    [doRequest] that returns has made no round trip, and what it returns
    is an error, unless the cache answered the request. *)
Theorem doRequest_slow_limiter_sends_nothing (method path : gostring)
    (params : option Values) (body : option searchRequestBody) (st st' : State C)
    (res : option bytes) (err : option error) :
  maxTokens (limiter st) < 1 ->
  doRequest L w fuel c method path params body st = Some ((res, err), st') ->
  tripPos st' = tripPos st /\
  (exists evs, trace st' = evs ++ trace st /\ roundTrips evs = 0%nat) /\
  (err = None ->
   gostring_eqb method MethodGet = true /\
   exists c0, cache st = Some c0 /\
     fst (cacheGet c0 (buildCacheKey L c method path params)) = res /\ res <> None).
Proof.
  intros Hmax Hrun. unfold doRequest in Hrun.
  rewrite (bind_run _ _ _ _ _ (hasCache_run st)) in Hrun. cbv beta in Hrun.
  destruct (gostring_eqb method MethodGet) eqn:Hget; cbn [andb] in Hrun.
  - destruct (cache st) as [c0 |] eqn:Hc.
    + unfold bind at 1 in Hrun. unfold cacheGetM in Hrun. rewrite Hc in Hrun.
      cbv zeta in Hrun.
      set (key := buildCacheKey L c method path params) in *.
      destruct (fst (cacheGet c0 key)) as [b |] eqn:Hhit.
      * inversion Hrun; subst. cbn. split; [reflexivity |]. split.
        -- eexists [_]. split; reflexivity.
        -- intros _. split; [reflexivity |]. exists c0.
           split; [reflexivity | split; [exact Hhit | discriminate]].
      * apply attemptLoop_starved in Hrun; [| exact Hmax].
        destruct Hrun as (Hne & Htp & evs & Ht & Hr). cbn in Hne, Htp, Ht.
        split; [exact Htp |]. split.
        -- exists (evs ++ [EvCacheGet key false]). split.
           ++ rewrite Ht. now rewrite <- app_assoc.
           ++ rewrite roundTrips_app, Hr. reflexivity.
        -- intro He. congruence.
    + apply attemptLoop_starved in Hrun; [| exact Hmax].
      destruct Hrun as (Hne & Htp & Hev). cbn in Hne.
      split; [exact Htp |]. split; [exact Hev |]. intro He. congruence.
  - apply attemptLoop_starved in Hrun; [| exact Hmax].
    destruct Hrun as (Hne & Htp & Hev). cbn in Hne.
    split; [exact Htp |]. split; [exact Hev |]. intro He. congruence.
Qed.

End Starved.

Lemma doRequest_slow_limiter_sends_nothing_witness :
  exists st',
    doRequest plainLibs cancellingWorld 5 defaultClient MethodGet detailPath None None
      (initState (NewRateLimiter (1 # 2) 0) (Some ([] : TableCache)))
    = Some ((None, Some (wrapError "rate limiter: %w" (Some ctxCanceled))), st') /\
    tripPos st' = 0%nat /\
    exists evs, trace st' = evs ++ [] /\ roundTrips evs = 0%nat.
Proof.
  assert (Hrun : exists st',
            doRequest plainLibs cancellingWorld 5 defaultClient MethodGet detailPath
              None None (initState (NewRateLimiter (1 # 2) 0) (Some ([] : TableCache)))
            = Some ((None, Some (wrapError "rate limiter: %w" (Some ctxCanceled))),
                    st')).
  { eexists. vm_compute. reflexivity. }
  destruct Hrun as [st' Hrun]. exists st'. split; [exact Hrun |].
  destruct (doRequest_slow_limiter_sends_nothing plainLibs cancellingWorld 5
              defaultClient MethodGet detailPath None None
              (initState (NewRateLimiter (1 # 2) 0) (Some ([] : TableCache))) st'
              None _ eq_refl Hrun) as (Htp & Hev & _).
  split; [exact Htp | exact Hev].
Defined.

(** ** A context that is already cancelled *)

Lemma Wait_cancelled_returns {C : Type} (w : World) (fuel : nat) (st : State C) :
  (0 < fuel)%nat ->
  ctxDone w (selectPos st) <> None ->
  exists res st', Wait w fuel st = Some (res, st').
Proof.
  intros Hfuel Hctx. destruct fuel as [| fuel]; [lia |].
  rewrite Wait_unfold. cbv zeta.
  destruct (Qle_bool 1 (tokens (refill (clock w (clockPos st)) (limiter st)))).
  - eauto.
  - destruct (ctxDone w (selectPos st)) as [e |]; [eauto | congruence].
Qed.

Section Cancelled.

Context {C : Type} {cacheOps : Cache C}.
Variable L : Libs.
Variable w : World.
Variable fuel : nat.
Variable c : Client.

Hypothesis cancelled : forall n, ctxDone w n <> None.

Local Open Scope go_scope.

(** The sleep before a retry ends on the cancelled context. *)
Lemma backoff_phase_cancelled (attempt : Z) (st : State C) :
  (0 < attempt)%Z ->
  exists err st1,
    (waitTime <- backoffDelay w c (attempt - 1) ;; sleep w waitTime) st
      = Some (Some err, st1) /\
    tripPos st1 = tripPos st /\
    exists evs, trace st1 = evs ++ trace st /\ roundTrips evs = 0%nat /\
      backoffSleeps evs = 1%nat.
Proof.
  intros Hpos. unfold backoffDelay.
  destruct (Qlt_bool 0 (Jitter (retryConfig c)));
    unfold bind, randomFloat, sleep, bind, selectCtx, emit, ret;
    cbn [selectPos clockPos randPos tripPos limiter cache trace];
    (destruct (ctxDone w (selectPos st)) as [e |] eqn:E;
       [| exfalso; now apply (cancelled (selectPos st))]);
    exists e; eexists; (split; [reflexivity |]);
    cbn [selectPos clockPos randPos tripPos limiter cache trace];
    (split; [reflexivity |]); eexists [_]; repeat split; reflexivity.
Qed.

(** From the second attempt on the loop makes no round trip. *)
Lemma attemptLoop_cancelled_later (method path : gostring) (params : option Values)
    (body : option searchRequestBody) (cacheKey : gostring) (remaining : nat)
    (attempt : Z) (lastErr : option error) (st : State C) :
  (0 < attempt)%Z ->
  exists r st',
    attemptLoop L w fuel c method path params body cacheKey remaining attempt lastErr st
      = Some (r, st') /\
    snd r <> None /\ tripPos st' = tripPos st /\
    exists evs, trace st' = evs ++ trace st /\ roundTrips evs = 0%nat /\
      (backoffSleeps evs <= 1)%nat.
Proof.
  intro Hpos. destruct remaining as [| remaining].
  - eexists _, st. split; [reflexivity |]. cbn. split; [discriminate |].
    split; [reflexivity |]. exists []. cbn. repeat split; lia.
  - destruct (backoff_phase_cancelled attempt st Hpos)
      as (err & st1 & Hsleep & Htp & Hev).
    exists (None, Some err), st1. split.
    + cbn [attemptLoop]. apply Z.ltb_lt in Hpos. rewrite Hpos.
      rewrite (bind_run _ _ _ _ _ Hsleep). reflexivity.
    + cbn. split; [discriminate | split; [exact Htp |]].
      destruct Hev as (evs & Ht & Hr & Hs). exists evs. repeat split; try assumption; lia.
Qed.


Lemma executeRequest_returns (method path : gostring) (params : option Values)
    (body : option searchRequestBody) (st : State C) :
  exists r st', executeRequest L w c method path params body st = Some (r, st').
Proof.
  unfold executeRequest.
  destruct (prepareRequest L c method path params body); eexists _, _; reflexivity.
Qed.

(** The first attempt may still go through, when the bucket holds a token. *)
Lemma attemptLoop_cancelled_first (method path : gostring) (params : option Values)
    (body : option searchRequestBody) (cacheKey : gostring) (remaining : nat)
    (lastErr : option error) (st : State C) :
  (0 < fuel)%nat ->
  exists r st',
    attemptLoop L w fuel c method path params body cacheKey remaining 0 lastErr st
      = Some (r, st') /\
    (tripPos st' <= S (tripPos st))%nat /\
    (roundTrips (trace st') <= S (roundTrips (trace st)))%nat /\
    (backoffSleeps (trace st') <= S (backoffSleeps (trace st)))%nat.
Proof.
  intro Hfuel. destruct remaining as [| remaining].
  - eexists _, st. split; [reflexivity |]. repeat split; lia.
  - cbn [attemptLoop]. change (0 <? 0)%Z with false.
    unfold bind at 1. unfold ret at 1.
    destruct (Wait_cancelled_returns w fuel st Hfuel (cancelled _))
      as (res & st2 & Hwait).
    rewrite (bind_run _ _ _ _ _ Hwait).
    destruct (Wait_spent _ _ _ _ _ Hwait) as (Hr2 & _ & Hs2 & _ & Htp2 & _).
    destruct res as [e |].
    + eexists _, st2. split; [reflexivity |]. repeat split; lia.
    + destruct (executeRequest_returns method path params body st2)
        as (r & st3 & Hexec).
      rewrite (bind_run _ _ _ _ _ Hexec).
      destruct (executeRequest_spent L w c _ _ _ _ _ _ _ Hexec)
        as (t & (Hr3 & _ & Hs3 & _ & Htp3 & _) & Ht & _).
      destruct (snd r) as [err |].
      * destruct (shouldRetry (Some err) (snd (fst r))).
        -- destruct (attemptLoop_cancelled_later method path params body cacheKey
                       remaining (0 + 1)%Z (Some err) st3 ltac:(lia))
             as (r' & st' & Hrun & _ & Htp & evs & Hev & Hr & Hs).
           exists r', st'. split; [exact Hrun |].
           rewrite Htp, Hev, roundTrips_app, backoffSleeps_app, Hr.
           repeat split; lia.
        -- eexists _, st3. split; [reflexivity |]. repeat split; lia.
      * rewrite (bind_run _ _ _ _ _ (hasCache_run st3)). cbv beta.
        destruct (cache st3) as [c3 |] eqn:Hc3;
          [destruct (isEmpty cacheKey) |]; cbn [negb andb].
        -- eexists _, st3. split; [reflexivity |]. repeat split; lia.
        -- unfold bind, cacheSetM, ret. rewrite Hc3.
           eexists _, _. split; [reflexivity |]. cbn. repeat split; lia.
        -- rewrite andb_false_r.
           eexists _, st3. split; [reflexivity |]. repeat split; lia.
Qed.


(** X21: once the context is cancelled [doRequest] does not retry: every
    call returns, having made at most one round trip (the first attempt,
    when the bucket still held a token) and at most one, interrupted,
    backoff sleep. *)
Theorem doRequest_cancelled_no_retry (method path : gostring) (params : option Values)
    (body : option searchRequestBody) (st : State C) :
  (0 < fuel)%nat ->
  exists r st',
    doRequest L w fuel c method path params body st = Some (r, st') /\
    (tripPos st' <= S (tripPos st))%nat /\
    (roundTrips (trace st') <= S (roundTrips (trace st)))%nat /\
    (backoffSleeps (trace st') <= S (backoffSleeps (trace st)))%nat.
Proof.
  intro Hfuel. unfold doRequest.
  rewrite (bind_run _ _ _ _ _ (hasCache_run st)). cbv beta.
  destruct (gostring_eqb method MethodGet &&
            match cache st with Some _ => true | None => false end) eqn:Hcond.
  - apply andb_true_iff in Hcond as [_ Hhas].
    destruct (cache st) as [c0 |] eqn:Hc; [| discriminate].
    unfold bind at 1. unfold cacheGetM. rewrite Hc. cbv zeta.
    set (key := buildCacheKey L c method path params).
    destruct (fst (cacheGet c0 key)) as [b |].
    + eexists _, _. split; [reflexivity |]. cbn. repeat split; lia.
    + match goal with
      | |- context [attemptLoop _ _ _ _ _ _ _ _ _ ?n _ _ ?s] =>
          destruct (attemptLoop_cancelled_first method path params body key n None s
                      Hfuel) as (r & st' & Hrun & Htp & Hr & Hs)
      end.
      exists r, st'. split; [exact Hrun |]. cbn in Htp, Hr, Hs. repeat split; lia.
  - apply attemptLoop_cancelled_first. exact Hfuel.
Qed.

End Cancelled.

Lemma doRequest_cancelled_no_retry_witness :
  exists r st',
    doRequest plainLibs cancelledWorld 1 defaultClient MethodGet detailPath None None
      coldState = Some (r, st') /\
    (tripPos st' <= S (tripPos coldState))%nat /\
    (roundTrips (trace st') <= S (roundTrips (trace coldState)))%nat /\
    (backoffSleeps (trace st') <= S (backoffSleeps (trace coldState)))%nat.
Proof.
  apply (doRequest_cancelled_no_retry plainLibs cancelledWorld 1 defaultClient).
  - discriminate.
  - lia.
Defined.

(** ** The endpoints and their cache *)

Section EndpointCache.

Context {C : Type} {cacheOps : Cache C}.
Variable L : Libs.
Variable w : World.
Variable fuel : nat.
Variable c : Client.

Local Open Scope go_scope.


End EndpointCache.


Section EndpointErrors.

Context {C : Type} {cacheOps : Cache C}.
Variable L : Libs.
Variable w : World.
Variable c : Client.

Local Open Scope go_scope.

(** X23: an error reported in the envelope of a 200 response reaches the
    caller of [GetProductDetails] as [errorFromCode] of the envelope, but
    [doRequest] has by then stored the response, error envelope included,
    in the cache under the key of the request, for five minutes.  The
    world is steady, the limiter can grant, the request can be built and
    the cache has neither the product nor the request. *)
Theorem GetProductDetails_api_error_cached (productCode reqURL : gostring)
    (st : State C) (c0 : C) (b : bytes) (resp : apiResponse) :
  let code := TrimSpace productCode in
  let params : Values := [(runes "productCode", [code])] in
  let key := buildCacheKey L c MethodGet (runes "/product/detail") (Some params) in
  let c1 := snd (cacheGet c0 (getCacheKeyProduct c code)) in
  steadyWorld w -> canGrant w st ->
  isEmpty code = false ->
  cache st = Some c0 ->
  fst (cacheGet c0 (getCacheKeyProduct c code)) = None ->
  fst (cacheGet c1 key) = None ->
  prepareRequest L c MethodGet (runes "/product/detail") (Some params) None
    = inr reqURL ->
  (0 <= MaxRetries (retryConfig c))%Z ->
  roundTrip w (tripPos st) = Response 200 (inr b) ->
  unmarshalApiResponse L b = inr resp ->
  Code resp <> 200%Z ->
  exists (fuel0 : nat) (st' : State C),
    (forall fuel, (fuel0 <= fuel)%nat ->
       GetProductDetails L w fuel c productCode st
       = Some ((None, Some (errorFromCode (Code resp) (Message resp))), st')) /\
    tripPos st' = S (tripPos st) /\
    cache st' = Some (cacheSet (snd (cacheGet c1 key)) key b (5 * Minute)%Z).
Proof.
  intros code params key c1 Hworld Hgrant Hcode Hc Hmiss1 Hmiss2 Hprep Hk Hok Hdec Hne.
  set (st1 := mkState (clockPos st) (selectPos st) (randPos st) (tripPos st)
                (limiter st) (Some c1)
                (EvCacheGet (getCacheKeyProduct c code) false :: trace st)).
  assert (Hlook : cachedResult (unmarshalProduct L) (getCacheKeyProduct c code) st
                  = Some (None, st1)).
  { unfold cachedResult, bind, hasCache. rewrite Hc.
    unfold cacheGetM. rewrite Hc. cbv zeta. rewrite Hmiss1. reflexivity. }
  destruct (doRequest_settles L w c MethodGet (runes "/product/detail") (Some params)
              None reqURL st1 0) as (fuel0 & st' & Hrun & Htp & _ & Hca);
    try assumption.
  { intros c' Hc'. inversion Hc'; subst. exact Hmiss2. }
  { intros i Hi. lia. }
  { cbn [tripPos st1]. rewrite Nat.add_0_r, Hok. left. reflexivity. }
  cbn [tripPos st1 cache st1] in Hrun, Htp, Hca.
  rewrite Nat.add_0_r, Hok in Hrun, Hca.
  rewrite gostring_eqb_refl in Hca. unfold cacheAfter in Hca.
  change (snd (readResponse (Response 200 (inr b)))) with (@None error) in Hca.
  fold key in Hca.
  assert (Hkey : isEmpty key = false) by apply buildCacheKey_nonempty.
  rewrite Hkey in Hca.
  exists fuel0, st'. split; [| split; [lia | exact Hca]].
  intros fuel Hfuel. unfold GetProductDetails. fold code. rewrite Hcode.
  rewrite (bind_run _ _ _ _ _ Hlook).
  fold params. rewrite (bind_run _ _ _ _ _ (Hrun fuel Hfuel)).
  change (verdict (readResponse (Response 200 (inr b)))) with (Some b, @None error).
  cbn [fst snd unwrapBytes]. unfold parseResponse. rewrite Hdec.
  apply Z.eqb_neq in Hne. rewrite Hne. reflexivity.
Qed.

End EndpointErrors.

Lemma GetProductDetails_api_error_cached_witness :
  exists (fuel0 : nat) (st' : State TableCache),
    (forall fuel, (fuel0 <= fuel)%nat ->
       GetProductDetails refusingLibs servingWorld fuel defaultClient (runes "C8734")
         coldState
       = Some ((None, Some ErrProductNotFound), st')) /\
    tripPos st' = 1%nat /\
    cache st' =
      Some [(runes "GET:USD:/product/detail?productCode=C8734",
             (runes "C8734", (5 * Minute)%Z))].
Proof.
  destruct (GetProductDetails_api_error_cached refusingLibs servingWorld defaultClient
              (runes "C8734")
              (defaultBaseURL ++ runes "/product/detail?productCode=C8734")
              coldState [] (runes "C8734") (mkApiResponse 404 (runes "not found") []))
    as (fuel0 & st' & Hrun & Htp & Hca).
  - apply steady_clock; reflexivity.
  - repeat split; vm_compute; discriminate.
  - reflexivity.
  - reflexivity.
  - reflexivity.
  - reflexivity.
  - reflexivity.
  - vm_compute. discriminate.
  - reflexivity.
  - reflexivity.
  - discriminate.
  - exists fuel0, st'. split; [exact Hrun |]. split; [exact Htp |].
    rewrite Hca. vm_compute. reflexivity.
Defined.

Section SearchErrors.

Context {C : Type} {cacheOps : Cache C}.
Variable L : Libs.
Variable w : World.
Variable fuel : nat.
Variable c : Client.

Local Open Scope go_scope.

Lemma cachedResult_quiet {A : Type} (decode : bytes -> error + A) (key : gostring)
    (st st' : State C) (hit : option A) :
  cachedResult decode key st = Some (hit, st') -> quiet st st'.
Proof.
  unfold cachedResult. rewrite (bind_run _ _ _ _ _ (hasCache_run st)). cbv beta.
  destruct (cache st) as [c0 |] eqn:Hc.
  - intro Hrun. bind_inv Hrun as cached st1 Hlook.
    apply cacheGetM_quiet in Hlook.
    destruct cached as [b |]; [destruct (decode b) |];
      inversion Hrun; subst; exact Hlook.
  - intro Hrun. inversion Hrun; subst. apply quiet_refl.
Qed.

(** X24: a search that fails leaves the cache unwritten: on every run of
    [KeywordSearch] that returns an error, whether from validation, the
    limiter, the transport or the envelope of the response, [Cache.Set]
    was not called. *)
Theorem KeywordSearch_error_stores_nothing (req : SearchRequest) (st st' : State C)
    (res : option (SearchResponse (Product L))) (err : error) :
  KeywordSearch L w fuel c req st = Some ((res, Some err), st') ->
  exists evs, trace st' = evs ++ trace st /\ storedTTLs evs = [].
Proof.
  unfold KeywordSearch. intro Hrun.
  destruct (isEmpty (TrimSpace (Keyword req))).
  { inversion Hrun; subst. apply quiet_refl. }
  bind_inv Hrun as hit st1 Hlook.
  apply cachedResult_quiet in Hlook.
  destruct hit as [resp |]; [inversion Hrun |].
  bind_inv Hrun as r st2 Hreq.
  assert (H2 : quiet st1 st2).
  { apply (doRequest_quiet L w fuel c _ _ _ _ _ _ _ Hreq). now right. }
  pose proof (quiet_trans _ _ _ Hlook H2) as H.
  destruct (snd r) as [e |].
  { inversion Hrun; subst. exact H. }
  destruct (parseResponse L (unmarshalWrapper L) (mkWrapper [] 0 None)
              (unwrapBytes (fst r))) as [e | wrapper].
  { inversion Hrun; subst. exact H. }
  bind_inv Hrun as u st3 Hstore. inversion Hrun.
Qed.

End SearchErrors.

Lemma KeywordSearch_error_stores_nothing_witness :
  exists st' evs,
    KeywordSearch refusingLibs servingWorld 1 defaultClient
      (mkSearchRequest (runes "stm32") 1 10 false (runes "fuzzy")) coldState
      = Some ((None, Some ErrProductNotFound), st') /\
    trace st' = evs ++ trace coldState /\ storedTTLs evs = [].
Proof.
  assert (Hrun : exists st',
            KeywordSearch refusingLibs servingWorld 1 defaultClient
              (mkSearchRequest (runes "stm32") 1 10 false (runes "fuzzy")) coldState
            = Some ((None, Some ErrProductNotFound), st')).
  { eexists. vm_compute. reflexivity. }
  destruct Hrun as [st' Hrun]. exists st'.
  destruct (KeywordSearch_error_stores_nothing refusingLibs servingWorld 1
              defaultClient _ coldState st' None _ Hrun) as (evs & Ht & Hq).
  exists evs. split; [exact Hrun | split; [exact Ht | exact Hq]].
Defined.

(** ** [parseRetryAfter] *)



